(** * DocuForge frontend: project store, API client, export deck builder
      and project-creation wizard, embedded from the TypeScript sources.

    Sources embedded here:
    - [frontend/src/lib/api.ts]: the axios instance and its request
      interceptor;
    - the project store [@/stores/projectStore] (zustand);
    - the refinement panel ([RefinementPanel], [handleRefine]);
    - [frontend/src/pages/ProjectWorkspace.tsx]: [handleExport] with the
      deck building, and the creation wizard [NewProject] with
      [handleCreate].

    JavaScript strings are sequences of 16-bit code units; they are modelled
    as lists of code units ([N]), so that [trim], [split] and [replace] act
    on the same units as in the engine. *)

From Stdlib Require Import ZArith NArith Lia.
From Stdlib Require Import Numbers.DecimalString.
From Stdlib Require Numbers.DecimalPos Numbers.DecimalZ.
From stdpp Require Import base option list gmap strings.

Set Default Proof Using "Type".

(* ===================================================================== *)
(** * JavaScript strings *)
(* ===================================================================== *)

Module Js.

(** A string is the list of its UTF-16 code units. *)
Abbreviation jsstring := (list N).

(** Embedding of an ASCII literal. *)
Definition js (s : string) : jsstring :=
  (λ a, Ascii.N_of_ascii a) <$> String.list_ascii_of_string s.

Definition LF : N := 10%N.

(** [Boolean(s)] for a string: every string but [''] is truthy. *)
Definition truthy (s : jsstring) : bool :=
  match s with [] => false | _ :: _ => true end.

(** [a || b] on strings. *)
Definition or_else (a b : jsstring) : jsstring :=
  if truthy a then a else b.

(** ECMAScript [WhiteSpace] and [LineTerminator] code points, the
    characters removed by [String.prototype.trim]: TAB, LF, VT, FF, CR,
    SPACE, NBSP, U+1680, U+2000..U+200A, U+2028, U+2029, U+202F, U+205F,
    U+3000 and U+FEFF. All of them are single code units. *)
Definition is_whitespace (c : N) : bool :=
  ((9 <=? c) && (c <=? 13) || (c =? 32) || (c =? 160) || (c =? 5760)
   || (8192 <=? c) && (c <=? 8202) || (c =? 8232) || (c =? 8233)
   || (c =? 8239) || (c =? 8287) || (c =? 12288) || (c =? 65279))%N.

Fixpoint trimStart (s : jsstring) : jsstring :=
  match s with
  | [] => []
  | c :: s' => if is_whitespace c then trimStart s' else s
  end.

Definition trimEnd (s : jsstring) : jsstring :=
  reverse (trimStart (reverse s)).

(** [s.trim()] *)
Definition trim (s : jsstring) : jsstring := trimEnd (trimStart s).

(** A string of white space only (the empty string included). *)
Definition blank (s : jsstring) : Prop :=
  Forall (λ c, is_whitespace c = true) s.

(** [s.split(/\n+/)]: the pieces between the maximal runs of LF. The
    regular expression is greedy, so a run of several LF is one
    separator; a separator at either end leaves an empty piece there, and
    the empty string splits into one empty piece. [cur] is the piece
    being read (reversed), [in_sep] tells that the previous unit was part
    of a separator. *)
Fixpoint split_go (s : jsstring) (cur : jsstring) (in_sep : bool)
  : list jsstring :=
  match s with
  | [] => [reverse cur]
  | c :: s' =>
      if (c =? LF)%N then
        if in_sep then split_go s' [] true
        else reverse cur :: split_go s' [] true
      else split_go s' (c :: cur) false
  end.

Definition split_newlines (s : jsstring) : list jsstring :=
  split_go s [] false.

(** [s.toUpperCase()] on the code units [a]..[z]; the other units are
    kept. It is applied to the two values of [DocumentType] only, which
    are ASCII. *)
Definition upper_unit (c : N) : N :=
  if ((97 <=? c) && (c <=? 122))%N then (c - 32)%N else c.

Definition toUpperCase (s : jsstring) : jsstring := upper_unit <$> s.

(** The class [[^a-z0-9_-]] under the [i] flag: everything but ASCII
    letters, digits, underscore and hyphen. *)
Definition is_name_unit (c : N) : bool :=
  ((97 <=? c) && (c <=? 122) || (65 <=? c) && (c <=? 90)
   || (48 <=? c) && (c <=? 57) || (c =? 95) || (c =? 45))%N.

(** [s.replace(/[^a-z0-9_-]/gi, '_')] *)
Definition sanitize (s : jsstring) : jsstring :=
  (λ c, if is_name_unit c then c else 95%N) <$> s.

(** [String(n)] and [n.toString()] for an integral number. *)
Definition string_of_Z (z : Z) : jsstring :=
  js (NilZero.string_of_int (Z.to_int z)).

End Js.
Import Js.

(* ===================================================================== *)
(** * Data model (project store, [components/TemplatePicker.tsx]) *)
(* ===================================================================== *)

Module Model.

(** [type DocumentType = 'docx' | 'pptx'] *)
Inductive DocumentType := docx | pptx.

Definition docTypeString (d : DocumentType) : jsstring :=
  match d with docx => js "docx" | pptx => js "pptx" end.

(** A [Date] object is kept as the expression that built it: [new Date()]
    at a clock reading, or [new Date(v)] for a value [v] of the server
    (a string, or [undefined]). *)
Inductive Date :=
| DateAt (ms : Z)
| DateOf (v : option jsstring).

Record Revision := {
  r_id : jsstring;
  r_content : jsstring;
  r_prompt : jsstring;
  r_timestamp : Date }.

Record Comment := {
  c_id : jsstring;
  c_text : jsstring;
  c_timestamp : Date }.

(** [interface Section] ([liked?: boolean] is an optional field). *)
Record DocSection := {
  s_id : jsstring;
  s_title : jsstring;
  s_content : jsstring;
  s_order : nat;
  s_revisions : list Revision;
  s_comments : list Comment;
  s_liked : option bool }.

Record Project := {
  p_id : jsstring;
  p_title : jsstring;
  p_docType : DocumentType;
  p_topic : jsstring;
  p_sections : list DocSection;
  p_createdAt : Date;
  p_updatedAt : Date }.

(** [Omit<Project, 'id' | 'createdAt' | 'updatedAt'>] *)
Record NewProject := {
  np_title : jsstring;
  np_docType : DocumentType;
  np_topic : jsstring;
  np_sections : list DocSection }.

(** [Partial<Section>]: [None] is a key that the object does not have. *)
Record SectionUpdates := {
  u_id : option jsstring;
  u_title : option jsstring;
  u_content : option jsstring;
  u_order : option nat;
  u_revisions : option (list Revision);
  u_comments : option (list Comment);
  u_liked : option bool }.

Definition no_updates : SectionUpdates :=
  {| u_id := None; u_title := None; u_content := None; u_order := None;
     u_revisions := None; u_comments := None; u_liked := None |}.

(** [{ ...s, ...updates }] *)
Definition apply_updates (s : DocSection) (u : SectionUpdates) : DocSection :=
  {| s_id := default (s_id s) (u_id u);
     s_title := default (s_title s) (u_title u);
     s_content := default (s_content s) (u_content u);
     s_order := default (s_order s) (u_order u);
     s_revisions := default (s_revisions s) (u_revisions u);
     s_comments := default (s_comments s) (u_comments u);
     s_liked := match u_liked u with Some b => Some b | None => s_liked s end |}.

(** [interface Template]; its free-form extra keys are not represented. *)
Record Template := {
  t_name : jsstring;
  t_description : option jsstring }.

(** Slide descriptors of the deck posted to [generate_pptx]. *)
Inductive Slide :=
| TitleSlide (title subtitle : jsstring) (images : list jsstring)
| SummarySlide (title : jsstring) (bullets : list jsstring) (notes : jsstring).

(** The [deck] object of [handleExport]; [deck_template = None] is the
    empty object of [selectedTemplate || {}]. *)
Record DeckModel := {
  deck_title : jsstring;
  deck_author : jsstring;
  deck_template : option Template;
  deck_slides : list Slide }.

(** ** Server data ([res.data], typed [any] in the source)

    Only the looseness that the source inspects is represented: an id
    that may be a number, arrays that may be missing, and the two
    spellings of the timestamps. *)

Inductive RawId :=
| IdNum (z : Z)
| IdStr (s : jsstring)
| IdUndefined
| IdNull.

(** [String(v)] *)
Definition String_ (v : RawId) : jsstring :=
  match v with
  | IdNum z => string_of_Z z
  | IdStr s => s
  | IdUndefined => js "undefined"
  | IdNull => js "null"
  end.

(** A section as the server sends it; [None] in [rs_revisions] or
    [rs_comments] is a missing, [undefined] or [null] field. *)
Record RawSection := {
  rs_id : RawId;
  rs_title : jsstring;
  rs_content : jsstring;
  rs_order : nat;
  rs_revisions : option (list Revision);
  rs_comments : option (list Comment);
  rs_liked : option bool }.

(** A project as the server sends it; [rp_sections = None] is a
    [sections] field for which [Array.isArray] is false. *)
Record RawProject := {
  rp_id : RawId;
  rp_title : jsstring;
  rp_docType : DocumentType;
  rp_topic : jsstring;
  rp_sections : option (list RawSection);
  rp_created_at : option jsstring;
  rp_createdAt : option jsstring;
  rp_updated_at : option jsstring;
  rp_updatedAt : option jsstring }.

(** The project in the response of the create route, read by
    [addProject]. Its [sections] is an array: [addProject] maps the
    sections under the test [Array.isArray(created.sections)] and has no
    other branch, so that a response with anything else there is stored
    with that field as sent; such an object is not a [Project], whose
    [sections] is [Section[]], and has no counterpart in this type. *)
Record RawCreated := {
  rc_id : RawId;
  rc_title : jsstring;
  rc_docType : DocumentType;
  rc_topic : jsstring;
  rc_sections : list RawSection;
  rc_created_at : option jsstring;
  rc_createdAt : option jsstring;
  rc_updated_at : option jsstring;
  rc_updatedAt : option jsstring }.

(** [a || b] on two optional strings of the server. *)
Definition raw_or (a b : option jsstring) : option jsstring :=
  match a with
  | Some s => if truthy s then a else b
  | None => b
  end.

(** [a || []] for an array field: an array is truthy even when empty. *)
Definition or_empty {A} (a : option (list A)) : list A :=
  match a with Some l => l | None => [] end.

(** [(s: any) => ({ ...s, id: String(s.id), revisions: s.revisions || [],
    comments: s.comments || [] })] *)
Definition normalizeSection (s : RawSection) : DocSection :=
  {| s_id := String_ (rs_id s);
     s_title := rs_title s;
     s_content := rs_content s;
     s_order := rs_order s;
     s_revisions := or_empty (rs_revisions s);
     s_comments := or_empty (rs_comments s);
     s_liked := rs_liked s |}.

End Model.
Import Model.

(* ===================================================================== *)
(** * API client ([frontend/src/lib/api.ts]) *)
(* ===================================================================== *)

Module Api.

Inductive Method := GET | POST | DELETE.

(** The JSON bodies that the embedded callers post. *)
Inductive Body :=
| NoBody
| BodyProject (project : NewProject)
| BodyComment (section_id text : jsstring)
| BodyRefine (sectionId prompt : jsstring)
| BodyDeck (deck : DeckModel)
| BodyExportDocx (clientSections : list (jsstring * jsstring * jsstring)).

(** A call [api.get(url)], [api.post(url, data)] or [api.delete(url)]. *)
Record ApiCall := {
  call_method : Method;
  call_url : jsstring;
  call_body : Body }.

(** How a request settles: the promise resolves with [res.data], or it
    rejects with an error [e] of which [e.message] is kept. *)
Inductive Result (A : Type) :=
| Ok (data : A)
| Failed (message : jsstring).
Arguments Ok {A} data.
Arguments Failed {A} message.

(** The request configuration seen by the interceptors. [cfg_headers] is
    the [config.headers] object, [None] when it is missing. *)
Record AxiosConfig := {
  cfg_baseURL : jsstring;
  cfg_method : Method;
  cfg_url : jsstring;
  cfg_headers : option (gmap jsstring jsstring);
  cfg_data : Body;
  cfg_withCredentials : bool }.

(** [import.meta.env.VITE_API_BASE_URL || 'http://localhost:8000'] *)
Definition baseURL (env : option jsstring) : jsstring :=
  or_else (default [] env) (js "http://localhost:8000").

Definition with_headers (config : AxiosConfig)
    (h : option (gmap jsstring jsstring)) : AxiosConfig :=
  {| cfg_baseURL := cfg_baseURL config;
     cfg_method := cfg_method config;
     cfg_url := cfg_url config;
     cfg_headers := h;
     cfg_data := cfg_data config;
     cfg_withCredentials := cfg_withCredentials config |}.

(** [api.interceptors.request.use((config) => { ... return config; })]
    with [token = useAuthStore.getState().token]: the header is written
    when both [token] and [config.headers] are truthy. *)
Definition request_interceptor (token : option jsstring)
    (config : AxiosConfig) : AxiosConfig :=
  match token, cfg_headers config with
  | Some t, Some h =>
      if truthy t
      then with_headers config
             (Some (<[js "Authorization" := js "Bearer " ++ t]> h))
      else config
  | _, _ => config
  end.

(** The configuration that [axios.create] gives to a call. *)
Definition api_config (env : option jsstring) (c : ApiCall) : AxiosConfig :=
  {| cfg_baseURL := baseURL env;
     cfg_method := call_method c;
     cfg_url := call_url c;
     cfg_headers := Some {[ js "Content-Type" := js "application/json" ]};
     cfg_data := call_body c;
     cfg_withCredentials := false |}.

(** The request that leaves the client for a call. *)
Definition send (env token : option jsstring) (c : ApiCall) : AxiosConfig :=
  request_interceptor token (api_config env c).

End Api.
Import Api.

(* ===================================================================== *)
(** * Project store ([useProjectStore]) *)
(* ===================================================================== *)

Module Store.

Record ProjectState := {
  projects : list Project;
  currentProject : option Project }.

(** What the user or the console is told. *)
Inductive Message :=
| ConsoleError (m : jsstring)
| ToastError (m : jsstring)
| ToastSuccess (m : jsstring).

(** An action of the store or of a component, split at its [await]:
    - [act_tells] is what it reports before it returns;
    - [act_sync] is what it does to the store before it returns;
    - [act_call] is the request it issues, if any;
    - [act_settle] is what it does to the store when that request
      settles, applied to the state of that moment ([set((state) => ..)]);
    - [act_says] is what it reports then, [act_returns] the value of its
      promise. *)
Record Action (A R : Type) := {
  act_tells : list Message;
  act_sync : ProjectState → ProjectState;
  act_call : option ApiCall;
  act_settle : Result A → ProjectState → ProjectState;
  act_says : Result A → list Message;
  act_returns : Result A → R }.
Arguments act_tells {A R} _.
Arguments act_sync {A R} _ _.
Arguments act_call {A R} _.
Arguments act_settle {A R} _ _ _.
Arguments act_says {A R} _ _.
Arguments act_returns {A R} _ _.

(** An action without request: [set] is called once, synchronously. *)
Definition local {A} (f : ProjectState → ProjectState) : Action A () :=
  {| act_tells := [];
     act_sync := f;
     act_call := None;
     act_settle := λ _ st, st;
     act_says := λ _, [];
     act_returns := λ _, () |}.

(** [set({ projects: ps })] and [set({ currentProject: c })] merge one
    field into the state. *)
Definition set_projects (ps : list Project) (st : ProjectState) : ProjectState :=
  {| projects := ps; currentProject := currentProject st |}.

Definition set_currentProject (c : option Project) (st : ProjectState)
  : ProjectState :=
  {| projects := projects st; currentProject := c |}.

(** The clock as one action of the store reads it. Every evaluation of
    [Date.now()] or [new Date()] is a reading of its own:
    - [at_id] is [Date.now()] for the id of a new revision or comment;
    - [at_item] is [new Date()] for its timestamp;
    - [at_entry i] is [new Date()] in the callback of [projects.map] for
      the entry at index [i];
    - [at_current] is [new Date()] for [currentProject]. *)
Record Clock := {
  at_id : Z;
  at_item : Z;
  at_entry : nat → Z;
  at_current : Z }.

(** A clock that reads the same at every evaluation. *)
Definition steady (ms : Z) : Clock :=
  {| at_id := ms; at_item := ms; at_entry := λ _, ms; at_current := ms |}.

(** [{ ...p, sections: p.sections.map(f), updatedAt: new Date() }] *)
Definition map_sections (f : DocSection → DocSection) (now : Z)
    (p : Project) : Project :=
  {| p_id := p_id p;
     p_title := p_title p;
     p_docType := p_docType p;
     p_topic := p_topic p;
     p_sections := f <$> p_sections p;
     p_createdAt := p_createdAt p;
     p_updatedAt := DateAt now |}.

(** [{ ...p, sections, updatedAt: new Date() }] *)
Definition with_sections (sections : list DocSection) (now : Z)
    (p : Project) : Project :=
  {| p_id := p_id p;
     p_title := p_title p;
     p_docType := p_docType p;
     p_topic := p_topic p;
     p_sections := sections;
     p_createdAt := p_createdAt p;
     p_updatedAt := DateAt now |}.

(** Lines 136-142 of [addProject]: the created project with its dates
    and ids normalized, and its sections mapped (the test
    [Array.isArray(created.sections)] holds of a [RawCreated]). *)
Definition normalizeCreated (created : RawCreated) : Project :=
  {| p_id := String_ (rc_id created);
     p_title := rc_title created;
     p_docType := rc_docType created;
     p_topic := rc_topic created;
     p_sections := normalizeSection <$> rc_sections created;
     p_createdAt := DateOf (raw_or (rc_created_at created) (rc_createdAt created));
     p_updatedAt := DateOf (raw_or (rc_updated_at created) (rc_updatedAt created)) |}.

(** The normalization of [setCurrentProject] (lines 191-196) and of
    [loadProjects] (lines 302-310), which both have [[]] for a
    [sections] field that is not an array. *)
Definition normalizeFetched (data : RawProject) : Project :=
  {| p_id := String_ (rp_id data);
     p_title := rp_title data;
     p_docType := rp_docType data;
     p_topic := rp_topic data;
     p_sections :=
       match rp_sections data with
       | Some ss => normalizeSection <$> ss
       | None => []
       end;
     p_createdAt := DateOf (raw_or (rp_created_at data) (rp_createdAt data));
     p_updatedAt := DateOf (raw_or (rp_updated_at data) (rp_updatedAt data)) |}.

(** [addProject: async (project) => { ... }] *)
Definition addProject (project : NewProject)
  : Action RawCreated (option Project) :=
  {| act_tells := [];
     act_sync := λ st, st;
     act_call := Some {| call_method := POST;
                         call_url := js "/api/projects/";
                         call_body := BodyProject project |};
     act_settle := λ res st,
       match res with
       | Ok created => set_projects (projects st ++ [normalizeCreated created]) st
       | Failed _ => st
       end;
     act_says := λ res,
       match res with
       | Ok _ => []
       | Failed _ => [ConsoleError (js "Failed to create project")]
       end;
     act_returns := λ res,
       match res with
       | Ok created => Some (normalizeCreated created)
       | Failed _ => None
       end |}.

(** [deleteProject: (id) => { (async () => { ... })(); }] *)
Definition deleteProject (id : jsstring) : Action () () :=
  {| act_tells := [];
     act_sync := λ st, st;
     act_call := Some {| call_method := DELETE;
                         call_url := js "/api/projects/" ++ id;
                         call_body := NoBody |};
     act_settle := λ res st,
       match res with
       | Ok _ =>
           {| projects := filter (λ p, p_id p ≠ id) (projects st);
              currentProject :=
                match currentProject st with
                | Some c => if decide (p_id c = id) then None else Some c
                | None => None
                end |}
       | Failed _ => st
       end;
     act_says := λ res,
       match res with
       | Ok _ => []
       | Failed _ => [ConsoleError (js "Failed to delete project")]
       end;
     act_returns := λ _, () |}.

(** [setCurrentProject: (project) => { ... }] *)
Definition setCurrentProject (project : option Project) : Action RawProject () :=
  match project with
  | None => local (set_currentProject None)
  | Some p =>
      if bool_decide (0 < length (p_sections p))
      then local (set_currentProject (Some p))
      else
        {| act_tells := [];
           act_sync := λ st, st;
           act_call := Some {| call_method := GET;
                               call_url := js "/api/projects/" ++ p_id p;
                               call_body := NoBody |};
           act_settle := λ res st,
             match res with
             | Ok data => set_currentProject (Some (normalizeFetched data)) st
             | Failed _ => set_currentProject (Some p) st
             end;
           act_says := λ res,
             match res with
             | Ok _ => []
             | Failed _ => [ConsoleError (js "Failed to fetch project")]
             end;
           act_returns := λ _, () |}
  end.

(** The section mapping shared by the three section mutations:
    [p.id !== projectId ? p : { ...p, sections: p.sections.map(s =>
    s.id === sectionId ? f(s) : s), updatedAt: new Date() }] *)
Definition on_section (projectId sectionId : jsstring)
    (f : DocSection → DocSection) (now : Z) (p : Project) : Project :=
  if decide (p_id p ≠ projectId) then p
  else map_sections (λ s, if decide (s_id s = sectionId) then f s else s) now p.

(** [updateSection: (projectId, sectionId, updates) => { set(...) }]:
    both [projects] and [currentProject] are written, each with the
    clock read anew (lines 214 and 224). *)
Definition updateSection (projectId sectionId : jsstring)
    (updates : SectionUpdates) (now : Clock) (st : ProjectState) : ProjectState :=
  {| projects :=
       imap (λ i, on_section projectId sectionId
                    (λ s, apply_updates s updates) (at_entry now i))
            (projects st);
     currentProject :=
       match currentProject st with
       | Some c =>
           if decide (p_id c = projectId)
           then Some (map_sections
                        (λ s, if decide (s_id s = sectionId)
                              then apply_updates s updates else s)
                        (at_current now) c)
           else Some c
       | None => None
       end |}.

(** [Omit<Revision, 'id' | 'timestamp'>] *)
Record RevisionInput := {
  ri_content : jsstring;
  ri_prompt : jsstring }.

(** [{ ...revision, id: Date.now().toString(), timestamp: new Date() }] *)
Definition newRevision (revision : RevisionInput) (now : Clock) : Revision :=
  {| r_id := string_of_Z (at_id now);
     r_content := ri_content revision;
     r_prompt := ri_prompt revision;
     r_timestamp := DateAt (at_item now) |}.

(** [{ ...s, revisions: [...s.revisions, newRevision] }] *)
Definition push_revision (r : Revision) (s : DocSection) : DocSection :=
  {| s_id := s_id s;
     s_title := s_title s;
     s_content := s_content s;
     s_order := s_order s;
     s_revisions := s_revisions s ++ [r];
     s_comments := s_comments s;
     s_liked := s_liked s |}.

(** [addRevision: (projectId, sectionId, revision) => { ... set(...) }]:
    the object given to [set] has the key [projects] only. *)
Definition addRevision (projectId sectionId : jsstring)
    (revision : RevisionInput) (now : Clock) (st : ProjectState) : ProjectState :=
  set_projects
    (imap (λ i, on_section projectId sectionId
                  (push_revision (newRevision revision now)) (at_entry now i))
          (projects st))
    st.

(** [{ id: Date.now().toString(), text, timestamp: new Date() }] *)
Definition newComment (text : jsstring) (now : Clock) : Comment :=
  {| c_id := string_of_Z (at_id now);
     c_text := text;
     c_timestamp := DateAt (at_item now) |}.

(** [{ ...s, comments: [...s.comments, newComment] }] *)
Definition push_comment (c : Comment) (s : DocSection) : DocSection :=
  {| s_id := s_id s;
     s_title := s_title s;
     s_content := s_content s;
     s_order := s_order s;
     s_revisions := s_revisions s;
     s_comments := s_comments s ++ [c];
     s_liked := s_liked s |}.

(** The [set] of [addComment] (lines 269-282). *)
Definition addComment_set (projectId sectionId text : jsstring) (now : Clock)
    (st : ProjectState) : ProjectState :=
  set_projects
    (imap (λ i, on_section projectId sectionId
                  (push_comment (newComment text now)) (at_entry now i))
          (projects st))
    st.

(** [addComment: (projectId, sectionId, text) => { ... }]: the request is
    started and not awaited, then the store is written. *)
Definition addComment (projectId sectionId text : jsstring) (now : Clock)
  : Action () () :=
  {| act_tells := [];
     act_sync := addComment_set projectId sectionId text now;
     act_call := Some {| call_method := POST;
                         call_url := js "/api/projects/" ++ projectId ++ js "/comment";
                         call_body := BodyComment sectionId text |};
     act_settle := λ _ st, st;
     act_says := λ res,
       match res with
       | Ok _ => []
       | Failed _ => [ConsoleError (js "Failed to persist comment")]
       end;
     act_returns := λ _, () |}.

(** [reorderSections: (projectId, sections) => { set(...) }]: the clock
    is read for the entry (line 289) and again for [currentProject]
    (line 294). *)
Definition reorderSections (projectId : jsstring) (sections : list DocSection)
    (now : Clock) (st : ProjectState) : ProjectState :=
  {| projects :=
       imap (λ i p, if decide (p_id p = projectId)
                    then with_sections sections (at_entry now i) p else p)
            (projects st);
     currentProject :=
       match currentProject st with
       | Some c =>
           if decide (p_id c = projectId)
           then Some (with_sections sections (at_current now) c) else Some c
       | None => None
       end |}.


(** The store as [create] builds it. *)
Definition initial : ProjectState :=
  {| projects := []; currentProject := None |}.

End Store.
Import Store.
(* ===================================================================== *)
(** * Export deck builder ([handleExport], ProjectWorkspace.tsx) *)
(* ===================================================================== *)

Module Workspace.

(** [content.split(/\n+/).map((p: string) => p.trim()).filter(Boolean)] *)
Definition paras (content : jsstring) : list jsstring :=
  filter (λ p, Is_true (truthy p)) (trim <$> split_newlines content).

(** [const content = s.content || ''; const paras = ...;
    const bullets = paras.slice(0, 6);] *)
Definition bullets (section_content : jsstring) : list jsstring :=
  let content := or_else section_content [] in
  take 6 (paras content).

(** [{ type: 'summary', title: s.title, bullets, notes: '' }] *)
Definition summary_slide (s : DocSection) : Slide :=
  SummarySlide (s_title s) (bullets (s_content s)) [].

(** Lines 39-57: the deck starts with no slide, the title slide is
    pushed, then one summary slide is pushed for each section in turn. *)
Definition buildDeck (currentProject : Project)
    (selectedTemplate : option Template) : DeckModel :=
  let slides0 : list Slide := [] in
  let slides1 :=
    slides0 ++ [TitleSlide (p_title currentProject)
                  (toUpperCase (docTypeString (p_docType currentProject))) []] in
  let slides :=
    foldl (λ acc s, acc ++ [summary_slide s]) slides1 (p_sections currentProject) in
  {| deck_title := p_title currentProject;
     deck_author := p_title currentProject;
     deck_template := selectedTemplate;
     deck_slides := slides |}.

(** The binary file of a response with [responseType: 'blob']. *)
Inductive Blob := BlobBytes (bytes : list N).

(** [`${(title || fallback).replace(/[^a-z0-9_-]/gi, '_')}.ext`] *)
Definition download_name (title fallback ext : jsstring) : jsstring :=
  sanitize (or_else title fallback) ++ ext.

(** [toast.error('Export failed: ' + (e.message || 'unknown'))] after
    [console.error('Export failed', e)] *)
Definition export_failed (message : jsstring) : list Message :=
  [ConsoleError (js "Export failed");
   ToastError (js "Export failed: " ++ or_else message (js "unknown"))].

(** [handleExport] (lines 32-94). The value returned is the name of the
    file handed to the browser for download, if any. The older copy of the
    component kept in the same file (lines 284-330) builds the deck with
    the same statements and posts it whatever the doc type. *)
Definition handleExport (currentProject : option Project)
    (selectedTemplate : option Template) : Action Blob (option jsstring) :=
  match currentProject with
  | None =>
      {| act_tells := []; act_sync := λ st, st; act_call := None;
         act_settle := λ _ st, st; act_says := λ _, [];
         act_returns := λ _, None |}
  | Some p =>
      let deck := buildDeck p selectedTemplate in
      match p_docType p with
      | pptx =>
          {| act_tells := [];
             act_sync := λ st, st;
             act_call := Some {| call_method := POST;
                                 call_url := js "/api/projects/generate_pptx";
                                 call_body := BodyDeck deck |};
             act_settle := λ _ st, st;
             act_says := λ res,
               match res with
               | Ok _ => [ToastSuccess (js "PPTX generated and downloaded")]
               | Failed m => export_failed m
               end;
             act_returns := λ res,
               match res with
               | Ok _ => Some (download_name (p_title p) (js "presentation") (js ".pptx"))
               | Failed _ => None
               end |}
      | docx =>
          let clientSections :=
            (λ s, (s_id s, s_title s, s_content s)) <$> p_sections p in
          {| act_tells := [];
             act_sync := λ st, st;
             act_call := Some {| call_method := POST;
                                 call_url := js "/api/projects/" ++ p_id p ++ js "/export";
                                 call_body := BodyExportDocx clientSections |};
             act_settle := λ _ st, st;
             act_says := λ res,
               match res with
               | Ok _ => [ToastSuccess (js "DOCX generated and downloaded")]
               | Failed m => export_failed m
               end;
             act_returns := λ res,
               match res with
               | Ok _ => Some (download_name (p_title p) (js "document") (js ".docx"))
               | Failed _ => None
               end |}
      end
  end.

End Workspace.
Import Workspace.

(* ===================================================================== *)
(** * Refinement panel ([RefinementPanel]) *)
(* ===================================================================== *)

Module RefinementPanel.

(** [res.data as any] of the refine route; [out_text = None] is a
    missing [text]. *)
Record RefineOut := { out_text : option jsstring }.

(** [const refined = out.text || ''] *)
Definition refined_text (out : RefineOut) : jsstring :=
  or_else (default [] (out_text out)) [].

(** The update [{ content: refined }]. *)
Definition content_update (refined : jsstring) : SectionUpdates :=
  {| u_id := None; u_title := None; u_content := Some refined;
     u_order := None; u_revisions := None; u_comments := None;
     u_liked := None |}.

Definition rejected {A} (m : jsstring) : Action A () :=
  {| act_tells := [ToastError m]; act_sync := λ st, st; act_call := None;
     act_settle := λ _ st, st; act_says := λ _, []; act_returns := λ _, () |}.

(** [handleRefine] for the panel of [section] in project [projectId],
    with [refinementPrompt] typed in and [token] in the auth store.
    [now] is the clock as [updateSection] reads it, [later] the clock as
    [addRevision] then reads it. *)
Definition handleRefine (projectId : jsstring) (section : DocSection)
    (refinementPrompt : jsstring) (token : option jsstring) (now later : Clock)
  : Action RefineOut () :=
  if negb (truthy (trim refinementPrompt))
  then rejected (js "Please enter a refinement prompt")
  else if negb (truthy (default [] token))
  then rejected (js "You must be logged in to refine content.")
  else
    {| act_tells := [];
       act_sync := λ st, st;
       act_call := Some {| call_method := POST;
                           call_url := js "/api/projects/" ++ projectId ++ js "/refine";
                           call_body := BodyRefine (s_id section) refinementPrompt |};
       act_settle := λ res st,
         match res with
         | Ok out =>
             let refined := refined_text out in
             let st1 :=
               updateSection projectId (s_id section) (content_update refined)
                 now st in
             addRevision projectId (s_id section)
               {| ri_content := refined; ri_prompt := refinementPrompt |} later st1
         | Failed _ => st
         end;
       act_says := λ res,
         match res with
         | Ok _ => [ToastSuccess (js "Content refined successfully!")]
         | Failed _ => [ConsoleError (js "Refine failed");
                        ToastError (js "Failed to refine content")]
         end;
       act_returns := λ _, () |}.

End RefinementPanel.
Import RefinementPanel.

(* ===================================================================== *)
(** * Project-creation wizard ([NewProject]) *)
(* ===================================================================== *)

Module NewProjectPage.

(** An entry of the wizard's [sections] state: [{ id, title }]. *)
Record WizardSection := {
  ws_id : jsstring;
  ws_title : jsstring }.

(** The state of the wizard that [handleCreate] reads. *)
Record Wizard := {
  w_title : jsstring;
  w_docType : DocumentType;
  w_topic : jsstring;
  w_sections : list WizardSection }.

(** [sections.filter((s) => s.title.trim())] *)
Definition validSections (w : Wizard) : list WizardSection :=
  filter (λ s, Is_true (truthy (trim (ws_title s)))) (w_sections w).

(** [validSections.map((s, index) => ({ id: s.id, title: s.title,
    content: '', order: index, revisions: [], comments: [] }))] *)
Definition projectSections (w : Wizard) : list DocSection :=
  imap (λ index s,
          {| s_id := ws_id s; s_title := ws_title s; s_content := [];
             s_order := index; s_revisions := []; s_comments := [];
             s_liked := None |})
       (validSections w).

(** [handleCreate]: refuses without a titled section, else awaits
    [addProject] and navigates to the created project. The value
    returned is the route navigated to, if any. *)
Definition handleCreate (w : Wizard) : Action RawCreated (option jsstring) :=
  if bool_decide (length (validSections w) = 0)
  then
    {| act_tells := [ToastError (js "Please add at least one section")];
       act_sync := λ st, st; act_call := None;
       act_settle := λ _ st, st; act_says := λ _, [];
       act_returns := λ _, None |}
  else
    let a := addProject {| np_title := w_title w;
                           np_docType := w_docType w;
                           np_topic := w_topic w;
                           np_sections := projectSections w |} in
    {| act_tells := act_tells a;
       act_sync := act_sync a;
       act_call := act_call a;
       act_settle := act_settle a;
       act_says := λ res,
         act_says a res ++
         match act_returns a res with
         | Some _ => [ToastSuccess (js "Project created successfully!")]
         | None => [ToastError (js "Failed to create project")]
         end;
       act_returns := λ res,
         match act_returns a res with
         | Some created => Some (js "/project/" ++ p_id created)
         | None => None
         end |}.

End NewProjectPage.
Import NewProjectPage.

(* ===================================================================== *)
(** * Reference definitions for the export deck builder *)
(* ===================================================================== *)

Module Paragraphs.

(** The lines of a string: the pieces between single LF units. *)
Fixpoint lines_go (s cur : jsstring) : list jsstring :=
  match s with
  | [] => [reverse cur]
  | c :: s' =>
      if (c =? LF)%N then reverse cur :: lines_go s' []
      else lines_go s' (c :: cur)
  end.

Definition lines (s : jsstring) : list jsstring := lines_go s [].

(** The lines that are not blank, trimmed. *)
Definition nonblank_lines (content : jsstring) : list jsstring :=
  filter (λ p, Is_true (truthy p)) (trim <$> lines content).

(** Paragraphs in the wording of the specification, "splitting section
    content on blank-line boundaries": consecutive lines belong to one
    paragraph, and a blank line (empty once trimmed) ends it. [cur] is
    the paragraph being read. *)
Fixpoint group_paragraphs (ls : list jsstring) (cur : option jsstring)
  : list jsstring :=
  match ls with
  | [] => match cur with Some p => [p] | None => [] end
  | l :: ls' =>
      if truthy (trim l)
      then group_paragraphs ls'
             (Some (match cur with Some p => p ++ [LF] ++ l | None => l end))
      else match cur with
           | Some p => p :: group_paragraphs ls' None
           | None => group_paragraphs ls' None
           end
  end.

Definition blank_line_paragraphs (content : jsstring) : list jsstring :=
  filter (λ p, Is_true (truthy p))
         (trim <$> group_paragraphs (lines content) None).

(** The bullets as the specification words them. *)
Definition bullets_by_blank_lines (content : jsstring) : list jsstring :=
  take 6 (blank_line_paragraphs content).

(** Two lines without a blank line between them. *)
Definition two_lines : jsstring := js "a" ++ [LF] ++ js "b".

(** Eight paragraphs, separated by blank lines. *)
Definition eight_paragraphs : jsstring :=
  js "p1" ++ [LF; LF] ++ js "p2" ++ [LF; LF] ++ js "p3" ++ [LF; LF] ++
  js "p4" ++ [LF; LF] ++ js "p5" ++ [LF; LF] ++ js "p6" ++ [LF; LF] ++
  js "p7" ++ [LF; LF] ++ js "p8".

End Paragraphs.
Import Paragraphs.

(* ===================================================================== *)
(** * Predicates of the statements and sample data *)
(* ===================================================================== *)

Module Props.

(** The two purely local section mutations, as actions. *)
Definition updateSection_action (projectId sectionId : jsstring)
    (updates : SectionUpdates) (now : Clock) : Action Empty_set () :=
  local (updateSection projectId sectionId updates now).

Definition addRevision_action (projectId sectionId : jsstring)
    (revision : RevisionInput) (now : Clock) : Action Empty_set () :=
  local (addRevision projectId sectionId revision now).

(** An action is optimistic and fire-and-forget when it issues a request,
    what it leaves in the store does not depend on how the request
    settles (the write is not deferred to the response and is not rolled
    back on failure), and a failure is reported on the console only. *)
Definition optimistic_fire_and_forget {A R} (a : Action A R) : Prop :=
  (∃ c, act_call a = Some c)
  ∧ (∀ res st, act_settle a res st = st)
  ∧ (∀ m, ∃ e, act_says a (Failed m) = [ConsoleError e]).

(** An action writes only once its request has succeeded: nothing is
    written before the response, nothing on failure, and the failure is
    reported on the console only. *)
Definition writes_after_success {A R} (a : Action A R) : Prop :=
  (∃ c, act_call a = Some c)
  ∧ (∀ st, act_sync a st = st)
  ∧ (∀ m st, act_settle a (Failed m) st = st)
  ∧ (∀ m, ∃ e, act_says a (Failed m) = [ConsoleError e]).

(** [currentProject] mirrors an entry of [projects]. *)
Definition in_sync (st : ProjectState) : Prop :=
  ∀ c, currentProject st = Some c → c ∈ projects st.








(** Two project objects that differ at most in [updatedAt]. *)
Definition same_but_stamp (p q : Project) : Prop :=
  p_id p = p_id q ∧ p_title p = p_title q ∧ p_docType p = p_docType q
  ∧ p_topic p = p_topic q ∧ p_sections p = p_sections q
  ∧ p_createdAt p = p_createdAt q.

(** [currentProject] mirrors an entry of [projects] but for the stamp
    [updatedAt]. *)
Definition mirrored (st : ProjectState) : Prop :=
  ∀ c, currentProject st = Some c →
       ∃ p, p ∈ projects st ∧ same_but_stamp p c.

(** What [{ ...s, ...updates }] holds, key by key: the value of
    [updates] where it has the key, the value of [s] elsewhere. *)
Definition section_updated (updates : SectionUpdates) (s s' : DocSection)
  : Prop :=
  s_id s' = match u_id updates with Some x => x | None => s_id s end
  ∧ s_title s' = match u_title updates with Some x => x | None => s_title s end
  ∧ s_content s'
    = match u_content updates with Some x => x | None => s_content s end
  ∧ s_order s' = match u_order updates with Some x => x | None => s_order s end
  ∧ s_revisions s'
    = match u_revisions updates with Some x => x | None => s_revisions s end
  ∧ s_comments s'
    = match u_comments updates with Some x => x | None => s_comments s end
  ∧ s_liked s' = match u_liked updates with Some x => Some x | None => s_liked s end.

(** What [updateSection] makes of a project object: one of another id
    is kept as it is; in one of the id [projectId] every section of the id
    [sectionId] is updated, the other sections and the other fields are
    kept, and [updatedAt] is a date read from the clock. *)
Definition project_updated (projectId sectionId : jsstring)
    (updates : SectionUpdates) (p p' : Project) : Prop :=
  if decide (p_id p = projectId)
  then p_id p' = p_id p ∧ p_title p' = p_title p
       ∧ p_docType p' = p_docType p ∧ p_topic p' = p_topic p
       ∧ p_createdAt p' = p_createdAt p
       ∧ (∃ ms, p_updatedAt p' = DateAt ms)
       ∧ Forall2 (λ s s', if decide (s_id s = sectionId)
                          then section_updated updates s s' else s' = s)
                 (p_sections p) (p_sections p')
  else p' = p.



(** The section at position [j] of the project at position [i] of
    [projects], with that project. *)
Definition section_at (st : ProjectState) (i j : nat)
  : option (Project * DocSection) :=
  p ← projects st !! i; s ← p_sections p !! j; Some (p, s).

(** [projects] has an entry for the project of [currentProject] whose
    sections are not those of [currentProject]. *)
Definition stale_mirror (st : ProjectState) : Prop :=
  ∃ c p, currentProject st = Some c ∧ p ∈ projects st
         ∧ p_id p = p_id c ∧ p_sections p ≠ p_sections c.

End Props.
Import Props.

Module Samples.

Definition sec (id title content : string) : DocSection :=
  {| s_id := js id; s_title := js title; s_content := js content;
     s_order := 0; s_revisions := []; s_comments := []; s_liked := None |}.

Definition proj (id title : string) (d : DocumentType)
    (sections : list DocSection) : Project :=
  {| p_id := js id; p_title := js title; p_docType := d; p_topic := js "topic";
     p_sections := sections;
     p_createdAt := DateAt 0; p_updatedAt := DateAt 0 |}.

(** A presentation without sections. *)
Definition empty_deck_project : Project := proj "7" "T" pptx [].

Definition report : Project := proj "1" "Report" docx [sec "s1" "Intro" "text"].
Definition slides : Project := proj "2" "Slides" pptx [sec "s2" "Agenda" ""].

(** A store with two projects, the first one open. *)
Definition two_projects : ProjectState :=
  {| projects := [report; slides]; currentProject := Some report |}.

Definition raw_section : RawSection :=
  {| rs_id := IdNum 11; rs_title := js "Intro"; rs_content := [];
     rs_order := 0; rs_revisions := None; rs_comments := None;
     rs_liked := None |}.


Definition raw_created : RawCreated :=
  {| rc_id := IdNum 3; rc_title := js "New"; rc_docType := docx;
     rc_topic := js "x"; rc_sections := [raw_section];
     rc_created_at := Some (js "2025-01-15T00:00:00");
     rc_createdAt := None;
     rc_updated_at := Some (js "2025-01-15T00:00:00");
     rc_updatedAt := None |}.




(** A clock that reads later at every evaluation. *)
Definition ticking : Clock :=
  {| at_id := 5; at_item := 6;
     at_entry := λ i, (7 + Z.of_nat i)%Z; at_current := 100 |}.

Definition get_projects : ApiCall :=
  {| call_method := GET; call_url := js "/api/projects/"; call_body := NoBody |}.

Definition wizard : Wizard :=
  {| w_title := js "T"; w_docType := docx; w_topic := js "x";
     w_sections := [ {| ws_id := js "1"; ws_title := js "Introduction" |};
                     {| ws_id := js "2"; ws_title := js "  " |};
                     {| ws_id := js "3"; ws_title := js "Results" |} ] |}.

End Samples.

(* ===================================================================== *)
(** * Further actions of the project store *)
(* ===================================================================== *)

Module StoreMore.

(** [Partial<Project>]: [None] is a key that the object does not have. *)
Record ProjectUpdates := {
  pu_id : option jsstring;
  pu_title : option jsstring;
  pu_docType : option DocumentType;
  pu_topic : option jsstring;
  pu_sections : option (list DocSection);
  pu_createdAt : option Date;
  pu_updatedAt : option Date }.

(** [{ ...p, ...updates, updatedAt: new Date() }]: the key [updatedAt]
    is written last, over the one of [updates]. *)
Definition merge_project (p : Project) (updates : ProjectUpdates) (now : Z)
  : Project :=
  {| p_id := default (p_id p) (pu_id updates);
     p_title := default (p_title p) (pu_title updates);
     p_docType := default (p_docType p) (pu_docType updates);
     p_topic := default (p_topic p) (pu_topic updates);
     p_sections := default (p_sections p) (pu_sections updates);
     p_createdAt := default (p_createdAt p) (pu_createdAt updates);
     p_updatedAt := DateAt now |}.

(** [updateProject: (id, updates) => { set(...) }] (lines 151-161): the
    clock is read for the entry (line 154) and again for [currentProject]
    (line 158). *)
Definition updateProject (id : jsstring) (updates : ProjectUpdates) (now : Clock)
    (st : ProjectState) : ProjectState :=
  {| projects :=
       imap (λ i p, if decide (p_id p = id)
                    then merge_project p updates (at_entry now i) else p)
            (projects st);
     currentProject :=
       match currentProject st with
       | Some c =>
           if decide (p_id c = id)
           then Some (merge_project c updates (at_current now)) else Some c
       | None => None
       end |}.

(** [{ ...u1, ...u2 }] on two [Partial<Section>] objects. *)
Definition merge_updates (u1 u2 : SectionUpdates) : SectionUpdates :=
  {| u_id := match u_id u2 with Some x => Some x | None => u_id u1 end;
     u_title := match u_title u2 with Some x => Some x | None => u_title u1 end;
     u_content := match u_content u2 with Some x => Some x | None => u_content u1 end;
     u_order := match u_order u2 with Some x => Some x | None => u_order u1 end;
     u_revisions :=
       match u_revisions u2 with Some x => Some x | None => u_revisions u1 end;
     u_comments :=
       match u_comments u2 with Some x => Some x | None => u_comments u1 end;
     u_liked := match u_liked u2 with Some x => Some x | None => u_liked u1 end |}.

End StoreMore.
Import StoreMore.

(* ===================================================================== *)
(** * Auth store ([useAuthStore]) *)
(* ===================================================================== *)

Module AuthStore.

(** [interface User] *)
Record User := {
  user_id : jsstring;
  user_email : jsstring;
  user_name : jsstring }.

(** The data of [AuthState]. *)
Record AuthState := {
  auth_user : option User;
  auth_token : option jsstring;
  auth_isAuthenticated : bool;
  auth_useMockMode : bool }.

(** The state that [create] builds. *)
Definition auth_initial : AuthState :=
  {| auth_user := None; auth_token := None;
     auth_isAuthenticated := false; auth_useMockMode := false |}.

(** [res.data] of the login route, read by [const { token, user } =
    res.data]: either key may be missing. *)
Record LoginData := {
  ld_token : option jsstring;
  ld_user : option User }.

(** The two requests of the auth store. *)
Inductive AuthRequest :=
| PostLogin (email password : jsstring)
| PostSignup (name email password : jsstring).

(** [set({ user, token, isAuthenticated: true })] *)
Definition set_session (user : option User) (token : option jsstring)
    (st : AuthState) : AuthState :=
  {| auth_user := user; auth_token := token;
     auth_isAuthenticated := true; auth_useMockMode := auth_useMockMode st |}.

(** [login]: the store is written when the request has succeeded; a
    failure rejects the promise of [login] and writes nothing. *)
Definition login_request (email password : jsstring) : AuthRequest :=
  PostLogin email password.

Definition login_settle (res : Result LoginData) (st : AuthState) : AuthState :=
  match res with
  | Ok data => set_session (ld_user data) (ld_token data) st
  | Failed _ => st
  end.

(** [signup]: the signup request, then a login request for the token;
    the second request is made once the first has succeeded. *)
Definition signup_requests (name email password : jsstring)
    (signed : Result User) : list AuthRequest :=
  PostSignup name email password
  :: match signed with
     | Ok _ => [PostLogin email password]
     | Failed _ => []
     end.

Definition signup_settle (signed : Result User) (logged : Result LoginData)
    (st : AuthState) : AuthState :=
  match signed, logged with
  | Ok user, Ok data => set_session (Some user) (ld_token data) st
  | _, _ => st
  end.

(** [logout: () => { set({ user: null, token: null, isAuthenticated:
    false }) }] *)
Definition logout (st : AuthState) : AuthState :=
  {| auth_user := None; auth_token := None;
     auth_isAuthenticated := false; auth_useMockMode := auth_useMockMode st |}.

(** [toggleMockMode] *)
Definition toggleMockMode (st : AuthState) : AuthState :=
  {| auth_user := auth_user st; auth_token := auth_token st;
     auth_isAuthenticated := auth_isAuthenticated st;
     auth_useMockMode := negb (auth_useMockMode st) |}.

(** The cleanup at start-up (lines 60-75), in a browser
    ([typeof window !== 'undefined']). *)
Definition startup_cleanup (has_window : bool) (st : AuthState) : AuthState :=
  if has_window
  then if bool_decide (auth_token st = Some (js "mock-token"))
          || auth_useMockMode st
       then auth_initial
       else st
  else st.

(** What happens to the auth store. *)
Inductive AuthEvent :=
| EvLogin (res : Result LoginData)
| EvSignup (signed : Result User) (logged : Result LoginData)
| EvLogout
| EvToggleMockMode
| EvStartup (has_window : bool).

Definition auth_step (ev : AuthEvent) (st : AuthState) : AuthState :=
  match ev with
  | EvLogin res => login_settle res st
  | EvSignup signed logged => signup_settle signed logged st
  | EvLogout => logout st
  | EvToggleMockMode => toggleMockMode st
  | EvStartup w => startup_cleanup w st
  end.

(** The store after a sequence of events, the first event first. *)
Definition auth_run (evs : list AuthEvent) (st : AuthState) : AuthState :=
  foldl (λ st ev, auth_step ev st) st evs.

(** A store that is not authenticated holds neither token nor user. *)
Definition signed_out_clean (st : AuthState) : Prop :=
  auth_isAuthenticated st = false → auth_token st = None ∧ auth_user st = None.

(** The [Authorization] header of the request sent for a call. *)
Definition authorization (env token : option jsstring) (c : ApiCall)
  : option jsstring :=
  h ← cfg_headers (send env token c); h !! js "Authorization".

End AuthStore.
Import AuthStore.

(* ===================================================================== *)
(** * The wizard's section list ([NewProject]) *)
(* ===================================================================== *)

Module WizardSections.

(** [handleAddSection]: [[...sections, { id: Date.now().toString(),
    title: '' }]] *)
Definition handleAddSection (now : Z) (sections : list WizardSection)
  : list WizardSection :=
  sections ++ [{| ws_id := string_of_Z now; ws_title := [] |}].

(** [handleRemoveSection]: nothing when one section is left. *)
Definition handleRemoveSection (id : jsstring) (sections : list WizardSection)
  : list WizardSection :=
  if bool_decide (1 < length sections)
  then filter (λ s, ws_id s ≠ id) sections
  else sections.

(** [handleUpdateSection] *)
Definition handleUpdateSection (id title : jsstring)
    (sections : list WizardSection) : list WizardSection :=
  (λ s, if decide (ws_id s = id)
        then {| ws_id := ws_id s; ws_title := title |} else s) <$> sections.

(** [items.splice(i, 1)]: the element removed, if any, and what is left. *)
Definition splice_out {A} (i : nat) (items : list A) : option A * list A :=
  (items !! i, delete i items).

(** [items.splice(i, 0, x)]: an index past the end inserts at the end. *)
Definition splice_in {A} (i : nat) (x : A) (items : list A) : list A :=
  take i items ++ x :: drop i items.

(** [handleDragEnd]: without destination the list is kept. The result is
    [None] when no element sits at the source index: the source then
    stores an array with an [undefined] entry, which is not a list of
    sections. *)
Definition handleDragEnd (source : nat) (destination : option nat)
    (sections : list WizardSection) : option (list WizardSection) :=
  match destination with
  | None => Some sections
  | Some d =>
      match splice_out source sections with
      | (Some reorderedItem, items) => Some (splice_in d reorderedItem items)
      | (None, _) => None
      end
  end.

(** [handleApplySuggested]: [suggestedTitles.map((t, idx) => ({ id:
    Date.now().toString() + '-' + idx, title: t }))]; [now idx] is the
    clock read for the entry [idx]. *)
Definition handleApplySuggested (now : nat → Z) (suggestedTitles : list jsstring)
  : list WizardSection :=
  imap (λ idx t,
          {| ws_id := string_of_Z (now idx) ++ js "-" ++ string_of_Z (Z.of_nat idx);
             ws_title := t |})
       suggestedTitles.

(** [res.data.titles || []], then the test [titles.length === 0] of
    [handleSuggestOutline]: the titles shown in the dialog, if it opens. *)
Definition suggested_outline (titles : option (list jsstring))
  : option (list jsstring) :=
  match or_empty titles with
  | [] => None
  | t :: ts => Some (t :: ts)
  end.

End WizardSections.
Import WizardSections.

(* ===================================================================== *)
(** * Dashboard, workspace effect and refinement panel handlers *)
(* ===================================================================== *)

Module Pages.

(** [projects.find((p) => p.id === id)] for a route or argument [id]
    that may be [undefined]. *)
Definition find_project (id : option jsstring) (ps : list Project)
  : option Project :=
  match id with
  | Some i => List.find (λ p, bool_decide (p_id p = i)) ps
  | None => None
  end.

(** What an effect or handler of a page does: the store action, the
    section selected afterwards and the route navigated to, if any. *)
Record PageStep := {
  step_action : Action RawProject ();
  step_selected : option jsstring;
  step_navigate : option jsstring }.

(** The action that does nothing. *)
Definition idle {A} : Action A () := local (λ st, st).

(** The effect of [ProjectWorkspace] (lines 20-30), run with the store
    in state [st]. [!selectedSectionId] holds for [null] and for ['']. *)
Definition workspace_effect (id selectedSectionId : option jsstring)
    (st : ProjectState) : PageStep :=
  match find_project id (projects st) with
  | Some project =>
      {| step_action := setCurrentProject (Some project);
         step_selected :=
           if negb (truthy (default [] selectedSectionId))
           then match p_sections project with
                | s :: _ => Some (s_id s)
                | [] => selectedSectionId
                end
           else selectedSectionId;
         step_navigate := None |}
  | None =>
      {| step_action := idle;
         step_selected := selectedSectionId;
         step_navigate := Some (js "/dashboard") |}
  end.

(** [handleOpenProject] of the dashboard. *)
Definition handleOpenProject (projectId : jsstring) (st : ProjectState)
  : PageStep :=
  match find_project (Some projectId) (projects st) with
  | Some project =>
      {| step_action := setCurrentProject (Some project);
         step_selected := None;
         step_navigate := Some (js "/project/" ++ projectId) |}
  | None =>
      {| step_action := idle; step_selected := None; step_navigate := None |}
  end.

(** [handleDeleteProject] of the dashboard: [deleteProject(projectId);
    toast.success('Project deleted');] *)
Definition handleDeleteProject (projectId : jsstring) : Action () () :=
  let a := deleteProject projectId in
  {| act_tells := act_tells a ++ [ToastSuccess (js "Project deleted")];
     act_sync := act_sync a;
     act_call := act_call a;
     act_settle := act_settle a;
     act_says := act_says a;
     act_returns := act_returns a |}.

(** [handleLike] and [handleDislike] of the refinement panel:
    [updateSection(projectId, section.id, { liked })], then a toast. *)
Definition liked_update (liked : bool) : SectionUpdates :=
  {| u_id := None; u_title := None; u_content := None; u_order := None;
     u_revisions := None; u_comments := None; u_liked := Some liked |}.

Definition handleFeedback (liked : bool) (projectId : jsstring)
    (section : DocSection) (now : Clock) : Action Empty_set () :=
  {| act_tells := [ToastSuccess (js "Feedback recorded")];
     act_sync := updateSection projectId (s_id section) (liked_update liked) now;
     act_call := None;
     act_settle := λ _ st, st;
     act_says := λ _, [];
     act_returns := λ _, () |}.

Definition handleLike := handleFeedback true.
Definition handleDislike := handleFeedback false.

(** [handleAddComment]: a blank comment is dropped without a word. *)
Definition handleAddComment (projectId : jsstring) (section : DocSection)
    (comment : jsstring) (now : Clock) : Action () () :=
  if negb (truthy (trim comment)) then idle
  else
    let a := addComment projectId (s_id section) comment now in
    {| act_tells := act_tells a ++ [ToastSuccess (js "Comment added")];
       act_sync := act_sync a;
       act_call := act_call a;
       act_settle := act_settle a;
       act_says := act_says a;
       act_returns := act_returns a |}.

(** [currentProject.sections.find((s: any) => s.id === selectedSectionId)] *)
Definition find_section (id : jsstring) (ss : list DocSection) : option DocSection :=
  List.find (λ s, bool_decide (s_id s = id)) ss.

(** The requests of [handleSaveAndExport]. *)
Inductive SaveExportRequest :=
| SaveSection (url title content : jsstring)
| PostDeck (deck : DeckModel)
| PostExportDocx (url : jsstring).

(** [handleSaveAndExport] (lines 96-162), split at its two [await]s:
    what it tells at once, the requests it makes given how the save
    settles, and what it tells and hands to the browser for download
    given how the save and the export settle. *)
Record SaveExportRun := {
  se_tells : list Message;
  se_requests : Result () → list SaveExportRequest;
  se_says : Result () → Result Blob → list Message;
  se_download : Result () → Result Blob → option jsstring }.

Definition se_silent (tells : list Message) : SaveExportRun :=
  {| se_tells := tells; se_requests := λ _, [];
     se_says := λ _ _, []; se_download := λ _ _, None |}.

(** [console.error('Save & Export failed', e); toast.error('Save &
    Export failed: ' + (e?.message || 'unknown'))] *)
Definition save_export_failed (message : jsstring) : list Message :=
  [ConsoleError (js "Save & Export failed");
   ToastError (js "Save & Export failed: " ++ or_else message (js "unknown"))].

Definition handleSaveAndExport (currentProject : option Project)
    (selectedSectionId : option jsstring) (selectedTemplate : option Template)
  : SaveExportRun :=
  match currentProject with
  | None => se_silent []
  | Some p =>
      if negb (truthy (default [] selectedSectionId))
      then se_silent [ToastError (js "No section selected to save")]
      else
        match find_section (default [] selectedSectionId) (p_sections p) with
        | None => se_silent [ToastError (js "Selected section not found")]
        | Some selected =>
            let save :=
              SaveSection (js "/api/projects/" ++ p_id p ++ js "/sections/"
                           ++ default [] selectedSectionId ++ js "/save")
                (s_title selected) (s_content selected) in
            let export :=
              match p_docType p with
              | pptx => PostDeck (buildDeck p selectedTemplate)
              | docx => PostExportDocx (js "/api/projects/" ++ p_id p ++ js "/export")
              end in
            {| se_tells := [];
               se_requests := λ saved,
                 save :: match saved with Ok _ => [export] | Failed _ => [] end;
               se_says := λ saved exported,
                 match saved, exported with
                 | Ok _, Ok _ =>
                     [ToastSuccess
                        (match p_docType p with
                         | pptx => js "Draft saved and PPTX downloaded"
                         | docx => js "Draft saved and DOCX downloaded"
                         end)]
                 | Ok _, Failed m => save_export_failed m
                 | Failed m, _ => save_export_failed m
                 end;
               se_download := λ saved exported,
                 match saved, exported with
                 | Ok _, Ok _ =>
                     Some (match p_docType p with
                           | pptx => download_name (p_title p) (js "presentation")
                                       (js ".pptx")
                           | docx => download_name (p_title p) (js "document")
                                       (js ".docx")
                           end)
                 | _, _ => None
                 end |}
        end
  end.

(** What happens to the section list of the wizard. [WApply] is the
    outline dialog accepted: [raw] is the [titles] key of the response
    that opened it, [edited] the titles as left in its inputs. *)
Inductive WizardEvent :=
| WAdd (now : Z)
| WRemove (id : jsstring)
| WUpdate (id title : jsstring)
| WDrag (source : nat) (destination : option nat)
| WApply (now : nat → Z) (raw : option (list jsstring)) (edited : list jsstring).

Definition wizard_event (ev : WizardEvent) (sections : list WizardSection)
  : option (list WizardSection) :=
  match ev with
  | WAdd now => Some (handleAddSection now sections)
  | WRemove id => Some (handleRemoveSection id sections)
  | WUpdate id title => Some (handleUpdateSection id title sections)
  | WDrag source destination => handleDragEnd source destination sections
  | WApply now _ edited => Some (handleApplySuggested now edited)
  end.

(** When an event can happen as modelled: a section is added at a clock
    reading that is not yet the id of a section; the dialog that is
    accepted was opened by [handleSuggestOutline], which needs a title,
    and editing keeps the number of titles. *)
Definition wizard_event_ok (ev : WizardEvent) (sections : list WizardSection)
  : Prop :=
  match ev with
  | WAdd now => string_of_Z now ∉ (ws_id <$> sections)
  | WApply _ raw edited =>
      ∃ titles, suggested_outline raw = Some titles
                ∧ length edited = length titles
  | _ => True
  end.

(** The section lists that the wizard can hold, from
    [[{ id: '1', title: 'Introduction' }]]. *)
Inductive wizard_reachable : list WizardSection → Prop :=
| wizard_start :
    wizard_reachable [{| ws_id := js "1"; ws_title := js "Introduction" |}]
| wizard_next ev sections sections' :
    wizard_reachable sections →
    wizard_event_ok ev sections →
    wizard_event ev sections = Some sections' →
    wizard_reachable sections'.

End Pages.
Import Pages.

(* ===================================================================== *)
(** * Facts about [trim] and [split] *)
(* ===================================================================== *)

Section StringFacts.
Implicit Types (s t cur : jsstring) (c : N).

Lemma trimStart_suffix s : ∃ ws, s = ws ++ trimStart s ∧ blank ws.
Proof.
  induction s as [|c s IH]; simpl.
  - exists []. split; [done | constructor].
  - destruct (is_whitespace c) eqn:Hc.
    + destruct IH as (ws & Hs & Hws). exists (c :: ws). split.
      * simpl. by rewrite <- Hs.
      * by constructor.
    + exists []. split; [done | constructor].
Qed.

Lemma trimStart_head s c r : trimStart s = c :: r → is_whitespace c = false.
Proof.
  induction s as [|d s IH]; simpl; [done |].
  destruct (is_whitespace d) eqn:Hd; [done |].
  intros [= <- _]. done.
Qed.

Lemma trimStart_fixed s :
  (∀ c r, s = c :: r → is_whitespace c = false) → trimStart s = s.
Proof.
  destruct s as [|c r]; [done |]. intros H. simpl.
  by rewrite (H c r eq_refl).
Qed.

Lemma trimStart_idem s : trimStart (trimStart s) = trimStart s.
Proof.
  apply trimStart_fixed. intros c r. apply trimStart_head.
Qed.

Lemma trimStart_blank s : blank s → trimStart s = [].
Proof.
  induction 1 as [|c s Hc _ IH]; simpl; [done |]. by rewrite Hc.
Qed.

Lemma trim_blank s : blank s → trim s = [].
Proof.
  intros H. unfold trim, trimEnd. by rewrite (trimStart_blank s H).
Qed.

Lemma trimStart_trim s : trimStart (trim s) = trim s.
Proof.
  unfold trim, trimEnd.
  set (t := trimStart s). set (u := trimStart (reverse t)).
  apply trimStart_fixed. intros c r Hcr.
  destruct (trimStart_suffix (reverse t)) as (ws & Hrt & _).
  fold u in Hrt.
  assert (Ht : t = c :: r ++ reverse ws).
  { rewrite <- (reverse_involutive t), Hrt, reverse_app, Hcr. done. }
  exact (trimStart_head s c _ Ht).
Qed.

Lemma trim_idem s : trim (trim s) = trim s.
Proof.
  unfold trim at 1. rewrite trimStart_trim.
  unfold trim, trimEnd. by rewrite reverse_involutive, trimStart_idem.
Qed.

(** A trimmed string neither starts nor ends with white space. *)
Lemma trim_head s c r : trim s = c :: r → is_whitespace c = false.
Proof.
  intros H. apply (trimStart_head (trim s) c r). by rewrite trimStart_trim.
Qed.

Lemma trim_last s c r : trim s = r ++ [c] → is_whitespace c = false.
Proof.
  unfold trim, trimEnd. intros H.
  apply (f_equal reverse) in H.
  rewrite reverse_involutive, reverse_app in H. simpl in H.
  exact (trimStart_head _ _ _ H).
Qed.

(** Splitting at runs of LF or at every LF leaves the same pieces once
    the empty ones are dropped. *)
Lemma split_go_lines s cur (in_sep : bool) :
  (in_sep = true → cur = []) →
  filter (λ p, Is_true (truthy p)) (trim <$> split_go s cur in_sep)
  = filter (λ p, Is_true (truthy p)) (trim <$> lines_go s cur).
Proof.
  revert cur in_sep. induction s as [|c s IH]; intros cur in_sep Hsep; simpl.
  - done.
  - destruct (c =? LF)%N.
    + destruct in_sep.
      * rewrite (Hsep eq_refl). simpl.
        rewrite filter_cons_False by (simpl; tauto).
        by apply IH.
      * simpl. rewrite !filter_cons. rewrite IH by done. done.
    + by apply IH.
Qed.

Lemma paras_nonblank_lines content : paras content = nonblank_lines content.
Proof. unfold paras, nonblank_lines, split_newlines, lines. by apply split_go_lines. Qed.

Lemma lines_go_blank s cur :
  blank s → blank cur → Forall blank (lines_go s cur).
Proof.
  revert cur. induction s as [|c s IH]; intros cur Hs Hcur; simpl.
  - constructor; [| constructor]. unfold blank. by apply Forall_reverse.
  - inversion Hs as [|? ? Hc Hs']; subst.
    destruct (c =? LF)%N.
    + constructor.
      * unfold blank. by apply Forall_reverse.
      * apply IH; [done | constructor].
    + apply IH; [done | by constructor].
Qed.

Lemma nonblank_lines_blank content : blank content → nonblank_lines content = [].
Proof.
  intros H. unfold nonblank_lines, lines.
  assert (Hl := lines_go_blank content [] H (Forall_nil_2 _)).
  induction Hl as [|l ls Hb _ IH]; simpl; [done |].
  rewrite (trim_blank l Hb). rewrite filter_cons_False by (simpl; tauto). done.
Qed.

Lemma or_else_empty s : or_else s [] = s.
Proof. by destruct s. Qed.

End StringFacts.

(* ===================================================================== *)
(** * The bullets of a summary slide *)
(* ===================================================================== *)

Section Bullets.
Implicit Types (content b : jsstring).

Lemma bullets_take content : bullets content = take 6 (nonblank_lines content).
Proof. unfold bullets. by rewrite or_else_empty, paras_nonblank_lines. Qed.

Lemma nonblank_lines_trimmed content b :
  b ∈ nonblank_lines content → b ≠ [] ∧ trim b = b.
Proof.
  unfold nonblank_lines. rewrite list_elem_of_filter, list_elem_of_fmap.
  intros [Hb (l & -> & _)]. split.
  - intros E. by rewrite E in Hb.
  - apply trim_idem.
Qed.

(** C1, claim as the code has it: the bullets of a summary slide are the
    first [min n 6] of the [n] non-empty, whitespace-trimmed lines of the
    section content, a line ending at every newline (a run of newlines
    separates like one); every bullet is non-empty and trimmed; content
    with 8 such lines yields exactly 6 bullets; blank content yields no
    bullet. *)
Theorem bullets_first_six_nonblank_lines content :
  let n := length (nonblank_lines content) in
  bullets content = take (n `min` 6) (nonblank_lines content)
  ∧ length (bullets content) = n `min` 6
  ∧ (∀ b, b ∈ bullets content → b ≠ [] ∧ trim b = b)
  ∧ (n = 8 → length (bullets content) = 6)
  ∧ (blank content → bullets content = []).
Proof.
  intros n. rewrite bullets_take.
  assert (Hlen : length (take 6 (nonblank_lines content)) = n `min` 6).
  { rewrite length_take. subst n. lia. }
  repeat split.
  - destruct (Nat.min_spec n 6) as [[Hlt ->] | [Hge ->]]; [| done].
    subst n. by rewrite !take_ge by lia.
  - exact Hlen.
  - apply (nonblank_lines_trimmed content). by eapply subseteq_take.
  - apply (nonblank_lines_trimmed content). by eapply subseteq_take.
  - intros Hn. rewrite Hlen, Hn. done.
  - intros Hb. by rewrite (nonblank_lines_blank content Hb).
Qed.

Lemma bullets_first_six_witness :
  length (bullets eight_paragraphs) = 6 ∧ bullets (js "   ") = [].
Proof.
  split.
  - apply (bullets_first_six_nonblank_lines eight_paragraphs). vm_compute. reflexivity.
  - apply (bullets_first_six_nonblank_lines (js "   ")). vm_compute.
    repeat constructor.
Defined.

(** C1, counterexample to the claim as stated: two lines that no blank
    line separates are one paragraph in the words of the specification,
    and two bullets in the deck. *)
Lemma bullets_split_without_blank_line :
  bullets two_lines = [js "a"; js "b"]
  ∧ bullets_by_blank_lines two_lines = [two_lines]
  ∧ bullets two_lines ≠ bullets_by_blank_lines two_lines.
Proof. vm_compute. repeat split. discriminate. Qed.

End Bullets.

(* ===================================================================== *)
(** * The deck of an export *)
(* ===================================================================== *)

Section DeckFacts.
Implicit Types (p : Project) (tpl : option Template).

Lemma push_all {A B} (f : A → B) (l : list A) (init : list B) :
  foldl (λ acc x, acc ++ [f x]) init l = init ++ (f <$> l).
Proof.
  revert init. induction l as [|x l IH]; intros init; simpl.
  - by rewrite app_nil_r.
  - rewrite IH. by rewrite <- app_assoc.
Qed.

Lemma docType_upper d :
  toUpperCase (docTypeString d)
  = match d with docx => js "DOCX" | pptx => js "PPTX" end.
Proof. by destruct d. Qed.

Lemma buildDeck_slides p tpl :
  deck_slides (buildDeck p tpl)
  = TitleSlide (p_title p) (toUpperCase (docTypeString (p_docType p))) []
    :: (summary_slide <$> p_sections p).
Proof. unfold buildDeck. simpl. by rewrite push_all. Qed.

(** C2: the deck of an export has the title slide first, carrying the
    project title and the upper-cased doc type, then one summary slide
    per section in order, hence one slide more than sections; a
    presentation is posted to [generate_pptx] with that deck and a
    response makes the export succeed with the download of the file;
    without sections the deck is the title slide alone. *)
Theorem deck_title_then_one_slide_per_section p tpl :
  deck_slides (buildDeck p tpl)
  = TitleSlide (p_title p)
      (match p_docType p with docx => js "DOCX" | pptx => js "PPTX" end) []
    :: (summary_slide <$> p_sections p)
  ∧ length (deck_slides (buildDeck p tpl)) = S (length (p_sections p))
  ∧ (p_docType p = pptx →
     act_call (handleExport (Some p) tpl)
     = Some {| call_method := POST;
               call_url := js "/api/projects/generate_pptx";
               call_body := BodyDeck (buildDeck p tpl) |}
     ∧ ∀ blob,
         act_returns (handleExport (Some p) tpl) (Ok blob)
         = Some (download_name (p_title p) (js "presentation") (js ".pptx"))
         ∧ act_says (handleExport (Some p) tpl) (Ok blob)
           = [ToastSuccess (js "PPTX generated and downloaded")])
  ∧ (p_sections p = [] →
     deck_slides (buildDeck p tpl)
     = [TitleSlide (p_title p)
          (match p_docType p with docx => js "DOCX" | pptx => js "PPTX" end) []]).
Proof.
  rewrite buildDeck_slides, docType_upper. repeat split.
  - simpl. by rewrite length_fmap.
  - unfold handleExport. by rewrite H.
  - unfold handleExport. by rewrite H.
  - unfold handleExport. by rewrite H.
  - intros ->. done.
Qed.

Lemma deck_title_then_one_slide_per_section_witness :
  length (deck_slides (buildDeck Samples.empty_deck_project None)) = 1
  ∧ act_returns (handleExport (Some Samples.empty_deck_project) None)
      (Ok (BlobBytes []))
    = Some (js "T.pptx").
Proof.
  pose proof (deck_title_then_one_slide_per_section
                Samples.empty_deck_project None) as (_ & Hlen & Hpptx & Hone).
  split.
  - rewrite (Hone eq_refl). reflexivity.
  - destruct (Hpptx eq_refl) as [_ Hok].
    destruct (Hok (BlobBytes [])) as [-> _]. reflexivity.
Defined.

End DeckFacts.

(* ===================================================================== *)
(** * The project store *)
(* ===================================================================== *)

Section StoreFacts.
Implicit Types (st : ProjectState) (p c : Project) (id : jsstring).

Lemma filter_all {A} (P : A → Prop) `{!∀ x, Decision (P x)} (l : list A) :
  Forall P l → filter P l = l.
Proof.
  induction 1 as [|x l Hx _ IH]; [done |].
  by rewrite filter_cons_True, IH.
Qed.

(** C5: when the request of [deleteProject id] succeeds, the projects
    left are those of another id, in their order and as they were, so
    that the project of that id alone goes when only one has it;
    [currentProject] becomes null exactly when it was that project and is
    left as it was otherwise. *)
Theorem deleteProject_removes_exactly id d st :
  let st' := act_settle (deleteProject id) (Ok d) st in
  (∀ p, p ∈ projects st' ↔ p ∈ projects st ∧ p_id p ≠ id)
  ∧ projects st' `sublist_of` projects st
  ∧ (∀ l1 p l2,
       projects st = l1 ++ p :: l2 → p_id p = id →
       Forall (λ q, p_id q ≠ id) (l1 ++ l2) →
       projects st' = l1 ++ l2)
  ∧ (currentProject st' = None ∨ currentProject st' = currentProject st)
  ∧ (currentProject st' ≠ currentProject st
     ↔ ∃ c, currentProject st = Some c ∧ p_id c = id).
Proof.
  simpl. split; [| split; [| split; [| split]]].
  - intros p. rewrite list_elem_of_filter. tauto.
  - apply sublist_filter.
  - intros l1 p l2 -> Hp Hrest.
    rewrite filter_app, filter_cons_False by (intros H; by apply H).
    rewrite <- filter_app. by apply filter_all.
  - destruct (currentProject st) as [c|]; [| by left].
    destruct (decide (p_id c = id)); [by left | by right].
  - destruct (currentProject st) as [c|].
    + destruct (decide (p_id c = id)) as [E|N].
      * split; [intros _; by exists c | done].
      * split; [done |]. intros (c' & [= <-] & E). done.
    + split; [done |]. intros (c' & [=] & _).
Qed.

Lemma deleteProject_removes_exactly_witness :
  projects (act_settle (deleteProject (js "1")) (Ok ()) Samples.two_projects)
  = [Samples.slides].
Proof.
  pose proof (deleteProject_removes_exactly (js "1") () Samples.two_projects)
    as (_ & _ & Hone & _).
  apply (Hone [] Samples.report [Samples.slides]).
  - reflexivity.
  - reflexivity.
  - repeat constructor. vm_compute. discriminate.
Defined.












Lemma on_section_id projectId sectionId f now p :
  p_id (on_section projectId sectionId f now p) = p_id p.
Proof. unfold on_section. by destruct (decide _). Qed.

Lemma on_section_lookup projectId sectionId f now p j :
  p_sections (on_section projectId sectionId f now p) !! j
  = (λ s, if decide (p_id p = projectId ∧ s_id s = sectionId) then f s else s)
      <$> (p_sections p !! j).
Proof.
  unfold on_section.
  destruct (decide (p_id p ≠ projectId)) as [N|E].
  - destruct (p_sections p !! j) as [s|]; [| done]. simpl.
    by rewrite decide_False by tauto.
  - apply dec_stable in E. simpl. rewrite list_lookup_fmap.
    destruct (p_sections p !! j) as [s|]; [| done]. simpl.
    destruct (decide (s_id s = sectionId)).
    + by rewrite decide_True.
    + by rewrite decide_False by tauto.
Qed.

Lemma on_section_length projectId sectionId f now p :
  length (p_sections (on_section projectId sectionId f now p))
  = length (p_sections p).
Proof.
  unfold on_section. destruct (decide _); [done |]. simpl. by rewrite length_fmap.
Qed.

(** [updateSection] writes [currentProject] with the mapping that it
    applies to the entries of [projects], at a reading of its own. *)
Lemma updateSection_current projectId sectionId updates now st :
  currentProject (updateSection projectId sectionId updates now st)
  = on_section projectId sectionId (λ s, apply_updates s updates)
      (at_current now) <$> currentProject st.
Proof.
  simpl. destruct (currentProject st) as [c|]; [| done]. simpl.
  unfold on_section. destruct (decide (p_id c = projectId)) as [E|N].
  - by rewrite decide_False by (intros H; by apply H).
  - by rewrite decide_True.
Qed.

Lemma apply_updates_updated updates s :
  section_updated updates s (apply_updates s updates).
Proof.
  unfold section_updated, apply_updates. simpl.
  destruct updates as [i t c o r m l]; simpl.
  split; [by destruct i |]. split; [by destruct t |].
  split; [by destruct c |]. split; [by destruct o |].
  split; [by destruct r |]. split; [by destruct m |]. by destruct l.
Qed.

Lemma on_section_updated projectId sectionId updates ms p :
  project_updated projectId sectionId updates p
    (on_section projectId sectionId (λ s, apply_updates s updates) ms p).
Proof.
  unfold project_updated, on_section.
  destruct (decide (p_id p = projectId)) as [E|N].
  - rewrite decide_False by (intros H; by apply H). simpl.
    do 5 (split; [done |]). split; [by eexists |].
    induction (p_sections p) as [|s ss IH]; simpl; constructor; [| done].
    destruct (decide (s_id s = sectionId)); [| done].
    apply apply_updates_updated.
  - by rewrite decide_True.
Qed.

Lemma Forall2_imap {A B} (P : A → B → Prop) (f : nat → A → B) (l : list A) :
  (∀ i x, l !! i = Some x → P x (f i x)) → Forall2 P l (imap f l).
Proof.
  revert f. induction l as [|x l IH]; intros f H; simpl; constructor.
  - by apply (H 0).
  - apply IH. intros i y Hy. by apply (H (S i)).
Qed.

Lemma on_section_same_but_stamp projectId sectionId f ms ms' p c :
  same_but_stamp p c →
  same_but_stamp (on_section projectId sectionId f ms p)
                 (on_section projectId sectionId f ms' c).
Proof.
  intros (Hid & Ht & Hd & Hto & Hs & Hc). unfold on_section. rewrite Hid.
  destruct (decide (p_id c ≠ projectId)); [done |].
  unfold same_but_stamp. simpl. by rewrite Hs.
Qed.

(** C10: [addRevision] and [addComment] leave [currentProject] as it is,
    whatever project it holds, and the response to the comment request
    writes nothing; [updateSection] applies one and the same update to the
    entries of [projects] and to [currentProject]: in each object of the
    project's id the sections of the section's id take the values of
    [updates] key by key and keep their other values, the other sections
    and fields stay, and [updatedAt] is read from the clock, once for each
    object; so a [currentProject] that mirrors an entry of [projects] but
    for [updatedAt] still does after [updateSection], whatever the clock
    reads; after [addRevision] or [addComment] on the current project it
    does not: [projects] has sections that [currentProject] has not. *)
Theorem addRevision_addComment_skip_currentProject :
  (∀ projectId sectionId revision now st,
      currentProject (addRevision projectId sectionId revision now st)
      = currentProject st)
  ∧ (∀ projectId sectionId text now st res,
      currentProject (act_sync (addComment projectId sectionId text now) st)
      = currentProject st
      ∧ act_settle (addComment projectId sectionId text now) res st = st)
  ∧ (∀ projectId sectionId updates now st,
      let st' := updateSection projectId sectionId updates now st in
      Forall2 (project_updated projectId sectionId updates)
        (projects st) (projects st')
      ∧ option_Forall2 (project_updated projectId sectionId updates)
          (currentProject st) (currentProject st'))
  ∧ (∀ projectId sectionId updates now st,
      mirrored st → mirrored (updateSection projectId sectionId updates now st))
  ∧ (in_sync Samples.two_projects
     ∧ mirrored Samples.two_projects
     ∧ stale_mirror
         (addRevision (js "1") (js "s1")
            {| ri_content := js "new"; ri_prompt := js "shorten" |}
            Samples.ticking Samples.two_projects)
     ∧ ¬ mirrored
         (addRevision (js "1") (js "s1")
            {| ri_content := js "new"; ri_prompt := js "shorten" |}
            Samples.ticking Samples.two_projects)
     ∧ stale_mirror
         (act_sync (addComment (js "1") (js "s1") (js "note") Samples.ticking)
            Samples.two_projects)
     ∧ ¬ mirrored
         (act_sync (addComment (js "1") (js "s1") (js "note") Samples.ticking)
            Samples.two_projects)).
Proof.
  split; [done |]. split; [done |]. split; [| split].
  - intros projectId sectionId updates now st st'. split.
    + apply Forall2_imap. intros i p _. apply on_section_updated.
    + subst st'. rewrite updateSection_current.
      destruct (currentProject st) as [c|]; constructor.
      apply on_section_updated.
  - intros projectId sectionId updates now st Hsync c.
    rewrite updateSection_current.
    destruct (currentProject st) as [c0|] eqn:Hc; [| done].
    intros [= <-]. destruct (Hsync c0 Hc) as (p & Hp & Hsame).
    apply list_elem_of_lookup in Hp as [i Hi].
    exists (on_section projectId sectionId (λ s, apply_updates s updates)
              (at_entry now i) p).
    split; [| by apply on_section_same_but_stamp].
    apply list_elem_of_lookup. exists i. simpl.
    by rewrite list_lookup_imap, Hi.
  - assert (Hsync : in_sync Samples.two_projects).
    { intros c [= <-]. apply list_elem_of_here. }
    split; [exact Hsync |]. split.
    { intros c Hc. exists c. split; [by apply Hsync | done]. }
    split; [| split; [| split]].
    + eexists _, _. split; [reflexivity |]. split; [apply list_elem_of_here |].
      split; [reflexivity |]. vm_compute. discriminate.
    + intros H. destruct (H _ eq_refl) as (p & Hp & Hsame).
      destruct Hsame as (Hid & _ & _ & _ & Hs & _).
      apply elem_of_cons in Hp as [-> | Hp]; [vm_compute in Hs; discriminate |].
      apply elem_of_cons in Hp as [-> | Hp]; [vm_compute in Hid; discriminate |].
      by apply elem_of_nil in Hp.
    + eexists _, _. split; [reflexivity |]. split; [apply list_elem_of_here |].
      split; [reflexivity |]. vm_compute. discriminate.
    + intros H. destruct (H _ eq_refl) as (p & Hp & Hsame).
      destruct Hsame as (Hid & _ & _ & _ & Hs & _).
      apply elem_of_cons in Hp as [-> | Hp]; [vm_compute in Hs; discriminate |].
      apply elem_of_cons in Hp as [-> | Hp]; [vm_compute in Hid; discriminate |].
      by apply elem_of_nil in Hp.
Qed.

(** An update of the content of the open project's section, with a clock
    that reads later at every evaluation, leaves [currentProject] a
    mirror. *)
Lemma addRevision_addComment_skip_currentProject_witness :
  mirrored (updateSection (js "1") (js "s1") (content_update (js "new"))
              Samples.ticking Samples.two_projects).
Proof.
  destruct addRevision_addComment_skip_currentProject
    as (_ & _ & _ & Hkeep & _ & Hs & _).
  apply Hkeep. exact Hs.
Defined.

(** C4, claim as the code has it: [addComment] alone writes the store at
    once and issues its request without awaiting it, the response
    writing nothing and a failure being logged on the console;
    [addProject] and [deleteProject] issue their request first and write
    the store only once it has succeeded, a failure leaving the store as
    it is and being logged on the console; [updateSection] and
    [addRevision] issue no request. *)
Theorem store_mutations_network_discipline :
  (∀ projectId sectionId text now,
      optimistic_fire_and_forget (addComment projectId sectionId text now)
      ∧ act_sync (addComment projectId sectionId text now)
        = addComment_set projectId sectionId text now)
  ∧ (∀ project, writes_after_success (addProject project))
  ∧ (∀ id, writes_after_success (deleteProject id))
  ∧ (∀ projectId sectionId updates now,
      act_call (updateSection_action projectId sectionId updates now) = None)
  ∧ (∀ projectId sectionId revision now,
      act_call (addRevision_action projectId sectionId revision now) = None).
Proof.
  split; [| split; [| split; [| split]]]; try done.
  - intros. split; [| done]. split; [by eexists |]. split; [done |].
    intros m. by eexists.
  - intros. split; [by eexists |]. split; [done |]. split; [done |].
    intros m. by eexists.
  - intros. split; [by eexists |]. split; [done |]. split; [done |].
    intros m. by eexists.
Qed.

(** C4, counterexample to the claim as stated: deleting or adding a
    project writes the store from the response, and updating a section or
    adding a revision issues no request. *)
Lemma store_mutations_not_all_optimistic :
  ¬ optimistic_fire_and_forget (deleteProject (js "1"))
  ∧ ¬ optimistic_fire_and_forget
        (addProject {| np_title := js "T"; np_docType := docx;
                       np_topic := js "x"; np_sections := [] |})
  ∧ ¬ optimistic_fire_and_forget
        (updateSection_action (js "1") (js "s1") no_updates (steady 5))
  ∧ ¬ optimistic_fire_and_forget
        (addRevision_action (js "1") (js "s1")
           {| ri_content := js "new"; ri_prompt := js "shorten" |} (steady 5)).
Proof.
  split; [| split; [| split]].
  - intros (_ & Hsettle & _).
    specialize (Hsettle (Ok ()) Samples.two_projects).
    apply (f_equal (λ st, length (projects st))) in Hsettle.
    vm_compute in Hsettle. discriminate.
  - intros (_ & Hsettle & _).
    specialize (Hsettle (Ok Samples.raw_created) initial).
    apply (f_equal (λ st, length (projects st))) in Hsettle.
    vm_compute in Hsettle. discriminate.
  - intros ([c Hc] & _). discriminate.
  - intros ([c Hc] & _). discriminate.
Qed.

End StoreFacts.

(* ===================================================================== *)
(** * Refining a section *)
(* ===================================================================== *)

Section RefineFacts.
Implicit Types (st : ProjectState) (p c : Project) (s : DocSection).

(** A refine that passes both guards is the request and the two store
    calls of the source. *)
Lemma handleRefine_performed projectId section refinementPrompt token now later :
  truthy (trim refinementPrompt) = true →
  (∃ t, token = Some t ∧ truthy t = true) →
  act_call (handleRefine projectId section refinementPrompt token now later)
  = Some {| call_method := POST;
            call_url := js "/api/projects/" ++ projectId ++ js "/refine";
            call_body := BodyRefine (s_id section) refinementPrompt |}
  ∧ ∀ out st,
      act_settle (handleRefine projectId section refinementPrompt token now later)
        (Ok out) st
      = addRevision projectId (s_id section)
          {| ri_content := refined_text out; ri_prompt := refinementPrompt |} later
          (updateSection projectId (s_id section)
             (content_update (refined_text out)) now st).
Proof.
  intros Hprompt (t & -> & Ht). unfold handleRefine.
  rewrite Hprompt. simpl. rewrite Ht. simpl. done.
Qed.

(** Where the two store calls of a refine leave the section at a
    position of [projects]. *)
Lemma refine_section_at projectId sectionId refined revision now later st i j :
  section_at
    (addRevision projectId sectionId revision later
       (updateSection projectId sectionId (content_update refined) now st)) i j
  = (λ '(p, s),
       let p1 := on_section projectId sectionId
                   (λ s, apply_updates s (content_update refined))
                   (at_entry now i) p in
       let s1 := if decide (p_id p = projectId ∧ s_id s = sectionId)
                 then apply_updates s (content_update refined) else s in
       (on_section projectId sectionId
          (push_revision (newRevision revision later)) (at_entry later i) p1,
        if decide (p_id p = projectId ∧ s_id s = sectionId)
        then push_revision (newRevision revision later) s1 else s1))
      <$> section_at st i j.
Proof.
  unfold section_at. simpl. rewrite !list_lookup_imap.
  destruct (projects st !! i) as [p|]; [| done]. simpl.
  rewrite !on_section_lookup, on_section_id.
  destruct (p_sections p !! j) as [s|]; [| done]. simpl.
  do 2 f_equal.
  destruct (decide (p_id p = projectId ∧ s_id s = sectionId)) as [[Hp Hs]|N].
  - by rewrite decide_True.
  - by rewrite decide_False.
Qed.




End RefineFacts.

(* ===================================================================== *)
(** * The request interceptor *)
(* ===================================================================== *)

Section ApiFacts.
Implicit Types (token env : option jsstring) (t : jsstring) (c : ApiCall).

Lemma truthy_nonempty t : truthy t = true ↔ t ≠ [].
Proof. by destruct t. Qed.

Lemma header_names_differ : js "Content-Type" ≠ js "Authorization".
Proof. vm_compute. discriminate. Qed.

(** C6, claim as the code has it: a request made through the client
    carries [Authorization: Bearer <token>] when the auth store holds a
    token that is neither null nor the empty string; its method, URL,
    body and content type are those of the call; with a null or empty
    token no [Authorization] header is set. *)
Theorem bearer_header_when_token_truthy env token c :
  ∃ h, cfg_headers (send env token c) = Some h
       ∧ (∀ t, token = Some t → t ≠ [] →
            h !! js "Authorization" = Some (js "Bearer " ++ t))
       ∧ (token = None ∨ token = Some [] → h !! js "Authorization" = None)
       ∧ h !! js "Content-Type" = Some (js "application/json")
       ∧ cfg_method (send env token c) = call_method c
       ∧ cfg_url (send env token c) = call_url c
       ∧ cfg_data (send env token c) = call_body c.
Proof.
  unfold send, request_interceptor. simpl.
  destruct token as [t|]; [destruct (truthy t) eqn:Ht |].
  - eexists. split; [reflexivity |].
    split; [| split; [| split; [| done]]].
    + intros t' [= <-] _. apply lookup_insert_eq.
    + intros [[=] | [= ->]]. discriminate.
    + rewrite lookup_insert_ne by (symmetry; apply header_names_differ).
      apply lookup_singleton_eq.
  - eexists. split; [reflexivity |].
    split; [| split; [| split; [| done]]].
    + intros t' [= <-] Hne. apply truthy_nonempty in Hne. congruence.
    + intros _. apply lookup_singleton_ne, header_names_differ.
    + apply lookup_singleton_eq.
  - eexists. split; [reflexivity |].
    split; [| split; [| split; [| done]]].
    + intros t' [=].
    + intros _. apply lookup_singleton_ne, header_names_differ.
    + apply lookup_singleton_eq.
Qed.

Lemma bearer_header_when_token_truthy_witness :
  ∃ h, cfg_headers (send None (Some (js "abc")) Samples.get_projects) = Some h
       ∧ h !! js "Authorization" = Some (js "Bearer abc").
Proof.
  destruct (bearer_header_when_token_truthy None (Some (js "abc"))
              Samples.get_projects) as (h & Hh & Hauth & _).
  exists h. split; [exact Hh |].
  apply (Hauth (js "abc")); [reflexivity | discriminate].
Defined.

(** C6, counterexample to the claim as stated: the empty string is a
    token that is not null, and the request goes without the header. *)
Lemma empty_token_sends_no_bearer :
  Some ([] : jsstring) ≠ None
  ∧ ∃ h, cfg_headers (send None (Some []) Samples.get_projects) = Some h
         ∧ h !! js "Authorization" = None.
Proof.
  split; [discriminate |]. eexists. split; [reflexivity |].
  apply lookup_singleton_ne, header_names_differ.
Qed.

End ApiFacts.

(* ===================================================================== *)
(** * The project-creation wizard *)
(* ===================================================================== *)

Section WizardFacts.
Implicit Types (w : Wizard) (s : WizardSection).

Lemma titled_iff s : Is_true (truthy (trim (ws_title s))) ↔ trim (ws_title s) ≠ [].
Proof. destruct (trim (ws_title s)); simpl; [tauto | split; [discriminate | done]]. Qed.

Lemma validSections_nil w :
  validSections w = [] ↔ Forall (λ s, trim (ws_title s) = []) (w_sections w).
Proof.
  unfold validSections. induction (w_sections w) as [|s l IH]; [done |].
  rewrite filter_cons, Forall_cons. destruct (decide _) as [Ht|Hn].
  - apply titled_iff in Ht. split; [discriminate | tauto].
  - rewrite IH. rewrite titled_iff in Hn. apply dec_stable in Hn. tauto.
Qed.

(** C7: the sections that the wizard submits are its sections with a
    title that is not blank, in the displayed order; each is sent with
    its id and title, empty content, no revision, no comment, and its
    position among the submitted sections as order index, so that the
    order indices are 0..n-1 without repetition; when every title is
    blank nothing is sent and the user is told to add a section. *)
Theorem wizard_scaffold_sections w :
  validSections w `sublist_of` w_sections w
  ∧ (∀ s, s ∈ validSections w ↔ s ∈ w_sections w ∧ trim (ws_title s) ≠ [])
  ∧ (Forall (λ s, trim (ws_title s) = []) (w_sections w) →
     act_call (handleCreate w) = None
     ∧ act_tells (handleCreate w) = [ToastError (js "Please add at least one section")]
     ∧ ∀ res st, act_sync (handleCreate w) st = st
                 ∧ act_settle (handleCreate w) res st = st)
  ∧ (Exists (λ s, trim (ws_title s) ≠ []) (w_sections w) →
     ∃ np,
       act_call (handleCreate w)
       = Some {| call_method := POST; call_url := js "/api/projects/";
                 call_body := BodyProject np |}
       ∧ np_title np = w_title w ∧ np_docType np = w_docType w
       ∧ np_topic np = w_topic w
       ∧ length (np_sections np) = length (validSections w)
       ∧ (∀ j s, validSections w !! j = Some s →
            np_sections np !! j
            = Some {| s_id := ws_id s; s_title := ws_title s; s_content := [];
                      s_order := j; s_revisions := []; s_comments := [];
                      s_liked := None |})
       ∧ s_order <$> np_sections np = seq 0 (length (validSections w))
       ∧ NoDup (s_order <$> np_sections np)).
Proof.
  split; [apply sublist_filter |]. split; [| split].
  - intros s. unfold validSections. rewrite list_elem_of_filter, titled_iff. tauto.
  - intros Hblank. apply validSections_nil in Hblank.
    unfold handleCreate. rewrite Hblank. done.
  - intros Hsome.
    assert (Hne : validSections w ≠ []).
    { rewrite validSections_nil. intros Hall.
      apply Exists_exists in Hsome as (s & Hs & Ht).
      rewrite Forall_forall in Hall. by apply Ht, Hall. }
    assert (Hlen : length (validSections w) ≠ 0).
    { by destruct (validSections w). }
    assert (Horder : s_order <$> projectSections w
                     = seq 0 (length (validSections w))).
    { unfold projectSections. rewrite fmap_imap.
      rewrite (imap_ext _ (λ j _, j)) by done.
      rewrite (imap_seq_0 (validSections w) (λ j, j)). apply list_fmap_id. }
    exists {| np_title := w_title w; np_docType := w_docType w;
              np_topic := w_topic w; np_sections := projectSections w |}.
    unfold handleCreate. rewrite bool_decide_eq_false_2 by done. simpl.
    repeat split.
    + unfold projectSections. apply length_imap.
    + intros j s Hj. unfold projectSections.
      rewrite list_lookup_imap, Hj. done.
    + exact Horder.
    + rewrite Horder. apply NoDup_seq.
Qed.

Lemma wizard_scaffold_sections_witness :
  ∃ np,
    act_call (handleCreate Samples.wizard)
    = Some {| call_method := POST; call_url := js "/api/projects/";
              call_body := BodyProject np |}
    ∧ s_order <$> np_sections np = [0; 1].
Proof.
  destruct (wizard_scaffold_sections Samples.wizard) as (_ & _ & _ & Hsubmit).
  destruct Hsubmit as (np & Hcall & _ & _ & _ & _ & _ & Horder & _).
  - apply Exists_cons_hd. vm_compute. discriminate.
  - exists np. split; [exact Hcall | exact Horder].
Defined.

End WizardFacts.

(* ===================================================================== *)
(** * Further facts about the project store *)
(* ===================================================================== *)

Section StoreLaws.
Implicit Types (st : ProjectState) (p c : Project) (s : DocSection).

Lemma state_eq st st' :
  projects st = projects st' → currentProject st = currentProject st' → st = st'.
Proof. destruct st, st'. simpl. by intros -> ->. Qed.

(** Where a mapping of one section leaves the section at a position. *)
Lemma on_section_section_at projectId sectionId f (now : nat → Z) st i j :
  section_at
    (set_projects
       (imap (λ k, on_section projectId sectionId f (now k)) (projects st)) st)
    i j
  = (λ '(p, s),
       (on_section projectId sectionId f (now i) p,
        if decide (p_id p = projectId ∧ s_id s = sectionId) then f s else s))
      <$> section_at st i j.
Proof.
  unfold section_at. simpl. rewrite list_lookup_imap.
  destruct (projects st !! i) as [p|]; [| done]. simpl.
  rewrite on_section_lookup. by destruct (p_sections p !! j).
Qed.

(** X1: [addComment] writes at once: every section stays in place with its
    id, content and revisions, the comments of the sections targeted get
    the new comment at the end and no other comment list changes; the
    request posts the same text for the same section. *)
Theorem addComment_appends_one_comment projectId sectionId text now st :
  let a := addComment projectId sectionId text now in
  let st' := act_sync a st in
  act_call a
  = Some {| call_method := POST;
            call_url := js "/api/projects/" ++ projectId ++ js "/comment";
            call_body := BodyComment sectionId text |}
  ∧ (∀ i j, is_Some (section_at st' i j) ↔ is_Some (section_at st i j))
  ∧ (∀ i j p s, section_at st i j = Some (p, s) →
       ∃ p' s', section_at st' i j = Some (p', s')
                ∧ p_id p' = p_id p ∧ s_id s' = s_id s
                ∧ s_content s' = s_content s
                ∧ s_revisions s' = s_revisions s
                ∧ s_comments s'
                  = if decide (p_id p = projectId ∧ s_id s = sectionId)
                    then s_comments s ++ [newComment text now]
                    else s_comments s)
  ∧ currentProject st' = currentProject st.
Proof.
  simpl. split; [done |]. unfold addComment_set. split; [| split; [| done]].
  - intros i j. rewrite (on_section_section_at _ _ _ (at_entry now)).
    apply fmap_is_Some.
  - intros i j p s Hat.
    rewrite (on_section_section_at _ _ _ (at_entry now)), Hat. simpl.
    eexists _, _. split; [reflexivity |]. rewrite on_section_id.
    destruct (decide (p_id p = projectId ∧ s_id s = sectionId)); done.
Qed.

Lemma addComment_appends_one_comment_witness :
  ∃ p' s',
    section_at (act_sync (addComment (js "1") (js "s1") (js "note")
                            Samples.ticking)
                  Samples.two_projects) 0 0 = Some (p', s')
    ∧ s_comments s' = [newComment (js "note") Samples.ticking].
Proof.
  destruct (addComment_appends_one_comment (js "1") (js "s1") (js "note")
              Samples.ticking Samples.two_projects) as (_ & _ & Hat & _).
  destruct (Hat 0 0 Samples.report (Samples.sec "s1" "Intro" "text") eq_refl)
    as (p' & s' & Hs' & _ & _ & _ & _ & Hc).
  exists p', s'. split; [exact Hs' | exact Hc].
Defined.

Lemma apply_updates_merge s u1 u2 :
  u_id u1 = None →
  apply_updates (apply_updates s u1) u2 = apply_updates s (merge_updates u1 u2).
Proof.
  destruct u1 as [i1 t1 c1 o1 r1 m1 l1], u2 as [i2 t2 c2 o2 r2 m2 l2].
  simpl. intros ->. unfold apply_updates, merge_updates. simpl.
  f_equal;
    [ by destruct i2 | by destruct t2 | by destruct c2 | by destruct o2
    | by destruct r2 | by destruct m2 | by destruct l2 ].
Qed.

Lemma update_one_merge sectionId u1 u2 s :
  u_id u1 = None →
  (λ s, if decide (s_id s = sectionId) then apply_updates s u2 else s)
    ((λ s, if decide (s_id s = sectionId) then apply_updates s u1 else s) s)
  = (λ s, if decide (s_id s = sectionId)
          then apply_updates s (merge_updates u1 u2) else s) s.
Proof.
  intros H1. simpl. destruct (decide (s_id s = sectionId)) as [E|N].
  - assert (Hid : s_id (apply_updates s u1) = sectionId).
    { unfold apply_updates. simpl. by rewrite H1. }
    rewrite decide_True by done. by apply apply_updates_merge.
  - by rewrite decide_False.
Qed.

Lemma map_sections_merge projectId sectionId u1 u2 now1 now p :
  u_id u1 = None →
  on_section projectId sectionId (λ s, apply_updates s u2) now
    (on_section projectId sectionId (λ s, apply_updates s u1) now1 p)
  = on_section projectId sectionId (λ s, apply_updates s (merge_updates u1 u2)) now p.
Proof.
  intros H1. unfold on_section at 2 3.
  destruct (decide (p_id p ≠ projectId)) as [N|E].
  - unfold on_section. by rewrite decide_True.
  - unfold on_section. simpl. rewrite decide_False by done.
    unfold map_sections. simpl. f_equal.
    rewrite <- list_fmap_compose. apply list_fmap_ext. intros k s _.
    by apply update_one_merge.
Qed.

Lemma updateSection_compose projectId sectionId u1 u2 now1 now st :
  u_id u1 = None →
  updateSection projectId sectionId u2 now
    (updateSection projectId sectionId u1 now1 st)
  = updateSection projectId sectionId (merge_updates u1 u2) now st.
Proof.
  intros H1. apply state_eq.
  - simpl. apply list_eq. intros k. rewrite !list_lookup_imap.
    destruct (projects st !! k) as [p|]; [| done]. simpl. f_equal.
    by apply map_sections_merge.
  - rewrite !updateSection_current.
    destruct (currentProject st) as [c|]; [| done]. simpl.
    f_equal. by apply map_sections_merge.
Qed.

(** X2: two [updateSection] calls on the same section are one call with
    the two update objects spread in turn, [{ ...u1, ...u2 }], stamped
    with the later clock, when the first does not rewrite the id: a later
    key overrides, and the same update twice is the update once. *)
Theorem updateSection_twice_is_merge projectId sectionId u1 u2 now1 now st :
  u_id u1 = None →
  updateSection projectId sectionId u2 now
    (updateSection projectId sectionId u1 now1 st)
  = updateSection projectId sectionId (merge_updates u1 u2) now st
  ∧ updateSection projectId sectionId u1 now
      (updateSection projectId sectionId u1 now1 st)
    = updateSection projectId sectionId u1 now st.
Proof.
  intros H1. split; [by apply updateSection_compose |].
  rewrite updateSection_compose by done. f_equal.
  destruct u1 as [i1 t1 c1 o1 r1 m1 l1]. unfold merge_updates. simpl.
  f_equal; [by destruct i1 | by destruct t1 | by destruct c1 | by destruct o1
           | by destruct r1 | by destruct m1 | by destruct l1].
Qed.

Lemma updateSection_twice_is_merge_witness :
  act_sync (handleDislike (js "1") (Samples.sec "s1" "Intro" "text")
              Samples.ticking)
    (act_sync (handleLike (js "1") (Samples.sec "s1" "Intro" "text") (steady 5))
       Samples.two_projects)
  = act_sync (handleDislike (js "1") (Samples.sec "s1" "Intro" "text")
                Samples.ticking)
      Samples.two_projects.
Proof.
  apply (updateSection_twice_is_merge (js "1") (js "s1")
           (liked_update true) (liked_update false) (steady 5) Samples.ticking
           Samples.two_projects eq_refl).
Defined.

Lemma merge_project_same_but_stamp updates ms ms' p c :
  same_but_stamp p c →
  same_but_stamp (merge_project p updates ms) (merge_project c updates ms').
Proof.
  intros (Hid & Ht & Hd & Hto & Hs & Hc). unfold same_but_stamp. simpl.
  by rewrite Hid, Ht, Hd, Hto, Hs, Hc.
Qed.

(** X3: what keeps [currentProject] a mirror, but for [updatedAt], of an
    entry of [projects] when it is one, whatever the clock reads:
    [addProject] and [deleteProject] however their request settles,
    [updateProject], [reorderSections], and [setCurrentProject] called
    with null or with an entry of [projects] (before its request
    settles). [updateProject] and [reorderSections] stamp the entry and
    [currentProject] with two readings of the clock, so that
    [currentProject] need not be the entry itself any more. *)
Theorem mirror_kept_in_sync st :
  mirrored st →
  (∀ project res, mirrored (act_settle (addProject project) res st))
  ∧ (∀ id res, mirrored (act_settle (deleteProject id) res st))
  ∧ (∀ id updates now, mirrored (updateProject id updates now st))
  ∧ (∀ projectId sections now,
       mirrored (reorderSections projectId sections now st))
  ∧ (∀ p, p ∈ projects st → mirrored (act_sync (setCurrentProject (Some p)) st))
  ∧ mirrored (act_sync (setCurrentProject None) st)
  ∧ (in_sync Samples.two_projects
     ∧ ¬ in_sync (reorderSections (js "1") [] Samples.ticking
                    Samples.two_projects)
     ∧ ¬ in_sync (updateProject (js "1")
                    {| pu_id := None; pu_title := Some (js "R"); pu_docType := None;
                       pu_topic := None; pu_sections := None;
                       pu_createdAt := None; pu_updatedAt := None |}
                    Samples.ticking Samples.two_projects)).
Proof.
  intros Hsync. split; [| split; [| split; [| split; [| split; [| split]]]]].
  - intros project [raw|m]; [| done]. intros c Hc. simpl in *.
    destruct (Hsync c Hc) as (p & Hp & Hsame). exists p.
    split; [| done]. apply elem_of_app. by left.
  - intros id [d|m]; [| done]. intros c. simpl.
    destruct (currentProject st) as [c0|] eqn:Hc0; [| done].
    destruct (decide (p_id c0 = id)); [done |]. intros [= <-].
    destruct (Hsync c0 Hc0) as (p & Hp & Hsame). exists p.
    split; [| done]. apply list_elem_of_filter. split; [| done].
    destruct Hsame as (-> & _). done.
  - intros id updates now c. simpl.
    destruct (currentProject st) as [c0|] eqn:Hc0; [| done].
    destruct (Hsync c0 Hc0) as (p & Hp & Hsame).
    apply list_elem_of_lookup in Hp as [i Hi].
    assert (Hid : p_id p = p_id c0) by apply Hsame.
    destruct (decide (p_id c0 = id)) as [E|N]; intros [= <-].
    + exists (merge_project p updates (at_entry now i)). split.
      * apply list_elem_of_lookup. exists i.
        rewrite list_lookup_imap, Hi. simpl.
        by rewrite decide_True by congruence.
      * by apply merge_project_same_but_stamp.
    + exists p. split; [| done].
      apply list_elem_of_lookup. exists i.
      rewrite list_lookup_imap, Hi. simpl.
      by rewrite decide_False by congruence.
  - intros projectId sections now c. simpl.
    destruct (currentProject st) as [c0|] eqn:Hc0; [| done].
    destruct (Hsync c0 Hc0) as (p & Hp & Hsame).
    apply list_elem_of_lookup in Hp as [i Hi].
    assert (Hid : p_id p = p_id c0) by apply Hsame.
    destruct (decide (p_id c0 = projectId)) as [E|N]; intros [= <-].
    + exists (with_sections sections (at_entry now i) p). split.
      * apply list_elem_of_lookup. exists i.
        rewrite list_lookup_imap, Hi. simpl.
        by rewrite decide_True by congruence.
      * destruct Hsame as (? & ? & ? & ? & ? & ?). by repeat split.
    + exists p. split; [| done].
      apply list_elem_of_lookup. exists i.
      rewrite list_lookup_imap, Hi. simpl.
      by rewrite decide_False by congruence.
  - intros p Hp. unfold setCurrentProject.
    destruct (bool_decide (0 < length (p_sections p))); [| done].
    intros c [= <-]. by exists p.
  - intros c [=].
  - split; [| split].
    + intros c [= <-]. apply list_elem_of_here.
    + intros H. specialize (H _ eq_refl).
      apply elem_of_cons in H as [H | H]; [vm_compute in H; discriminate |].
      apply elem_of_cons in H as [H | H]; [vm_compute in H; discriminate |].
      by apply elem_of_nil in H.
    + intros H. specialize (H _ eq_refl).
      apply elem_of_cons in H as [H | H]; [vm_compute in H; discriminate |].
      apply elem_of_cons in H as [H | H]; [vm_compute in H; discriminate |].
      by apply elem_of_nil in H.
Qed.

Lemma mirror_kept_in_sync_witness :
  mirrored (reorderSections (js "1") [] Samples.ticking Samples.two_projects).
Proof.
  assert (H : mirrored Samples.two_projects).
  { intros c [= <-]. exists Samples.report. split; [apply list_elem_of_here | done]. }
  destruct (mirror_kept_in_sync Samples.two_projects H) as (_ & _ & _ & Hr & _).
  apply Hr.
Defined.

(** X4: [setCurrentProject] never writes [projects]; it issues a request
    exactly when it is given a project without sections, and then writes
    nothing before the response and falls back on the project given when
    the request fails; a project with sections becomes current at once,
    and null clears the current project. *)
Theorem setCurrentProject_requests_iff_no_sections project :
  let a := setCurrentProject project in
  (∀ res st, projects (act_sync a st) = projects st
             ∧ projects (act_settle a res st) = projects st)
  ∧ (is_Some (act_call a) ↔ ∃ p, project = Some p ∧ p_sections p = [])
  ∧ (∀ p st, project = Some p → p_sections p ≠ [] →
       currentProject (act_sync a st) = Some p)
  ∧ (∀ p m st, project = Some p → p_sections p = [] →
       act_sync a st = st
       ∧ currentProject (act_settle a (Failed m) st) = Some p)
  ∧ (project = None → ∀ st, currentProject (act_sync a st) = None).
Proof.
  intros a. subst a. split; [| split; [| split; [| split]]].
  - intros res st. destruct project as [p|]; [| done].
    unfold setCurrentProject. destruct (bool_decide _); [done |].
    by destruct res.
  - split.
    + intros [x Hx]. destruct project as [p|]; [| discriminate].
      exists p. split; [done |]. unfold setCurrentProject in Hx.
      destruct (p_sections p); [done | discriminate].
    + intros (p & -> & E). unfold setCurrentProject. rewrite E. by eexists.
  - intros p st -> Hne. unfold setCurrentProject.
    by destruct (p_sections p).
  - intros p m st -> E. unfold setCurrentProject. by rewrite E.
  - by intros -> st.
Qed.

Lemma setCurrentProject_requests_iff_no_sections_witness :
  currentProject (act_sync (setCurrentProject (Some Samples.report)) initial)
  = Some Samples.report.
Proof.
  destruct (setCurrentProject_requests_iff_no_sections (Some Samples.report))
    as (_ & _ & Hset & _).
  apply Hset; [reflexivity | discriminate].
Defined.

Lemma filter_twice {A} (P Q : A → Prop) `{!∀ x, Decision (P x)}
    `{!∀ x, Decision (Q x)} (l : list A) :
  filter P (filter Q l) = filter Q (filter P l).
Proof.
  induction l as [|x l IH]; [done |].
  rewrite !(filter_cons _ x).
  destruct (decide (Q x)), (decide (P x)); rewrite ?filter_cons;
    repeat (rewrite ?decide_True, ?decide_False by done); by rewrite IH.
Qed.

Lemma filter_idem {A} (P : A → Prop) `{!∀ x, Decision (P x)} (l : list A) :
  filter P (filter P l) = filter P l.
Proof.
  apply filter_all. apply Forall_forall. intros x Hx.
  by apply list_elem_of_filter in Hx as [? _].
Qed.

(** X5: successful deletions compose: deleting the same id twice is
    deleting it once, and deletions of two ids give the same store in
    either order. *)
Theorem deleteProject_laws a b st :
  act_settle (deleteProject a) (Ok ()) (act_settle (deleteProject a) (Ok ()) st)
  = act_settle (deleteProject a) (Ok ()) st
  ∧ act_settle (deleteProject a) (Ok ()) (act_settle (deleteProject b) (Ok ()) st)
    = act_settle (deleteProject b) (Ok ()) (act_settle (deleteProject a) (Ok ()) st).
Proof.
  split; apply state_eq; simpl.
  - apply filter_idem.
  - destruct (currentProject st) as [c|]; [| done].
    destruct (decide (p_id c = a)) as [E|N]; [done |]. by rewrite decide_False.
  - apply filter_twice.
  - destruct (currentProject st) as [c|]; [| done].
    repeat (case_decide; simpl); congruence.
Qed.

(** X6: adding a project and deleting the id that the server gave it
    brings the store back, when no stored project had that id. *)
Theorem addProject_then_delete_restores project raw st :
  (∀ p, p ∈ projects st → p_id p ≠ String_ (rc_id raw)) →
  (∀ c, currentProject st = Some c → p_id c ≠ String_ (rc_id raw)) →
  act_settle (deleteProject (String_ (rc_id raw))) (Ok ())
    (act_settle (addProject project) (Ok raw) st)
  = st.
Proof.
  intros Hfresh Hcur. apply state_eq; simpl.
  - rewrite filter_app, filter_cons_False by (simpl; intros H; by apply H).
    rewrite filter_nil, app_nil_r. apply filter_all, Forall_forall, Hfresh.
  - destruct (currentProject st) as [c|]; [| done].
    by rewrite decide_False by (by apply Hcur).
Qed.

Lemma addProject_then_delete_restores_witness :
  act_settle (deleteProject (js "3")) (Ok ())
    (act_settle
       (addProject {| np_title := js "New"; np_docType := docx;
                      np_topic := js "x"; np_sections := [] |})
       (Ok Samples.raw_created) Samples.two_projects)
  = Samples.two_projects.
Proof.
  apply (addProject_then_delete_restores _ Samples.raw_created Samples.two_projects).
  - intros p Hp. vm_compute in Hp.
    apply elem_of_cons in Hp as [-> | Hp]; [vm_compute; discriminate |].
    apply elem_of_cons in Hp as [-> | Hp]; [vm_compute; discriminate |].
    by apply not_elem_of_nil in Hp.
  - intros c [= <-]. vm_compute. discriminate.
Defined.

End StoreLaws.

(* ===================================================================== *)
(** * Facts about the page handlers *)
(* ===================================================================== *)

Section PageFacts.
Implicit Types (st : ProjectState) (p c : Project) (s : DocSection).

Lemma find_project_found id ps p :
  find_project (Some id) ps = Some p → p ∈ ps ∧ p_id p = id.
Proof.
  simpl. intros H. apply List.find_some in H as [Hin Hid].
  split; [by apply list_elem_of_In | by apply bool_decide_eq_true in Hid].
Qed.

Lemma find_last_fresh id (ps : list Project) p :
  (∀ q, q ∈ ps → p_id q ≠ id) → p_id p = id →
  find_project (Some id) (ps ++ [p]) = Some p.
Proof.
  intros Hfresh Hp. simpl. induction ps as [|q ps IH]; simpl.
  - by rewrite bool_decide_eq_true_2.
  - rewrite bool_decide_eq_false_2 by (apply Hfresh, list_elem_of_here).
    apply IH. intros r Hr. apply Hfresh. by apply list_elem_of_further.
Qed.

Lemma find_project_exists id (ps : list Project) p :
  p ∈ ps → p_id p = id → ∃ q, find_project (Some id) ps = Some q.
Proof.
  intros Hin Hp. simpl.
  destruct (List.find _ ps) as [q|] eqn:Hf; [by exists q |].
  apply list_elem_of_In in Hin.
  pose proof (List.find_none _ _ Hf p Hin) as Hn. simpl in Hn.
  by rewrite bool_decide_eq_true_2 in Hn.
Qed.

Lemma section_at_elem st p s :
  p ∈ projects st → s ∈ p_sections p → ∃ i j, section_at st i j = Some (p, s).
Proof.
  intros [i Hi]%list_elem_of_lookup [j Hj]%list_elem_of_lookup.
  exists i, j. unfold section_at. rewrite Hi. simpl. by rewrite Hj.
Qed.

(** After the two store calls of a refine, the sections that bear the
    refined ids end with the new revision. *)
Lemma refine_revision_last projectId sectionId refined revision now later st p' s' :
  p' ∈ projects
         (addRevision projectId sectionId revision later
            (updateSection projectId sectionId (content_update refined) now st)) →
  s' ∈ p_sections p' → p_id p' = projectId → s_id s' = sectionId →
  last (s_revisions s') = Some (newRevision revision later).
Proof.
  intros Hp Hs Hpid Hsid.
  destruct (section_at_elem _ p' s' Hp Hs) as (i & j & Hat).
  rewrite refine_section_at in Hat.
  destruct (section_at st i j) as [[p s]|]; [| done]. simpl in Hat.
  injection Hat as Hp' Hs'.
  assert (Hid : p_id p = projectId).
  { rewrite <- Hpid, <- Hp'. by rewrite !on_section_id. }
  destruct (decide (p_id p = projectId ∧ s_id s = sectionId)) as [[_ E]|N].
  - rewrite <- Hs'. simpl. apply last_snoc.
  - exfalso. apply N. split; [done |]. by rewrite <- Hsid, <- Hs'.
Qed.

(** The entries of [projects] after the two store calls of a refine. *)
Lemma refine_projects_lookup projectId sectionId refined revision now later st i :
  projects
    (addRevision projectId sectionId revision later
       (updateSection projectId sectionId (content_update refined) now st)) !! i
  = (λ p, on_section projectId sectionId
            (push_revision (newRevision revision later)) (at_entry later i)
            (on_section projectId sectionId
               (λ s, apply_updates s (content_update refined))
               (at_entry now i) p))
      <$> projects st !! i.
Proof.
  simpl. rewrite !list_lookup_imap. by destruct (projects st !! i).
Qed.

(** X7: after a performed refine of a project that [projects] holds with
    its sections, the effect of the workspace, run for the refined
    project, finds it in [projects], makes it current at once and without
    a request and does not leave the page: the mirror is in sync again
    and the sections that it shows under the refined id end with the new
    revision. *)
Theorem refine_then_effect_shows_revision
    projectId section refinementPrompt token out now later selected st :
  truthy (trim refinementPrompt) = true →
  (∃ t, token = Some t ∧ truthy t = true) →
  let st1 := act_settle
               (handleRefine projectId section refinementPrompt token now later)
               (Ok out) st in
  let step := workspace_effect (Some projectId) selected st1 in
  let st2 := act_sync (step_action step) st1 in
  (∃ p0, p0 ∈ projects st ∧ p_id p0 = projectId) →
  (∀ p, p ∈ projects st → p_id p = projectId → p_sections p ≠ []) →
  ∃ project,
    find_project (Some projectId) (projects st1) = Some project
    ∧ project ∈ projects st1
    ∧ p_id project = projectId
    ∧ p_sections project ≠ []
    ∧ act_call (step_action step) = None
    ∧ step_navigate step = None
    ∧ currentProject st2 = Some project
    ∧ projects st2 = projects st1
    ∧ in_sync st2
    ∧ ∀ s', s' ∈ p_sections project → s_id s' = s_id section →
            last (s_revisions s')
            = Some (newRevision {| ri_content := refined_text out;
                                   ri_prompt := refinementPrompt |} later).
Proof.
  intros Hprompt Htoken st1 step st2 (p0 & Hp0 & Hid0) Hsec.
  destruct (handleRefine_performed projectId section refinementPrompt token
              now later Hprompt Htoken) as [_ Hsettle].
  assert (Hst1 : st1
            = addRevision projectId (s_id section)
                {| ri_content := refined_text out; ri_prompt := refinementPrompt |}
                later
                (updateSection projectId (s_id section)
                   (content_update (refined_text out)) now st))
    by apply Hsettle.
  apply list_elem_of_lookup in Hp0 as [i Hi].
  assert (Hex : ∃ q, find_project (Some projectId) (projects st1) = Some q).
  { eapply (find_project_exists projectId (projects st1)).
    - apply list_elem_of_lookup. exists i.
      rewrite Hst1, refine_projects_lookup, Hi. reflexivity.
    - by rewrite !on_section_id. }
  destruct Hex as [project Hfind].
  destruct (find_project_found _ _ _ Hfind) as [Hin Hid].
  assert (Hne : p_sections project ≠ []).
  { pose proof Hin as Hin'. apply list_elem_of_lookup in Hin' as [k Hk].
    rewrite Hst1, refine_projects_lookup in Hk.
    destruct (projects st !! k) as [q|] eqn:Hq; [| done].
    simpl in Hk. injection Hk as Hk. intros Hnil.
    assert (Hqid : p_id q = projectId).
    { rewrite <- Hid, <- Hk. by rewrite !on_section_id. }
    apply (Hsec q); [apply list_elem_of_lookup; by exists k | done |].
    apply (f_equal length) in Hnil.
    rewrite <- Hk, !on_section_length in Hnil.
    by destruct (p_sections q). }
  assert (Hstep : step_action step = local (set_currentProject (Some project))).
  { subst step. unfold workspace_effect. rewrite Hfind. simpl.
    by destruct (p_sections project). }
  exists project.
  split; [exact Hfind |]. split; [exact Hin |]. split; [exact Hid |].
  split; [exact Hne |].
  subst st2. rewrite Hstep. simpl.
  split; [done |]. split; [subst step; unfold workspace_effect; by rewrite Hfind |].
  split; [done |]. split; [done |]. split.
  - intros c [= <-]. done.
  - intros s' Hs' Hsid. rewrite Hst1 in Hin.
    by eapply refine_revision_last.
Qed.

Lemma refine_then_effect_shows_revision_witness :
  ∃ project,
    currentProject
      (act_sync
         (step_action
            (workspace_effect (Some (js "1")) None
               (act_settle
                  (handleRefine (js "1") (Samples.sec "s1" "Intro" "text")
                     (js "shorten") (Some (js "tok")) Samples.ticking (steady 9))
                  (Ok {| out_text := Some (js "new") |}) Samples.two_projects)))
         (act_settle
            (handleRefine (js "1") (Samples.sec "s1" "Intro" "text")
               (js "shorten") (Some (js "tok")) Samples.ticking (steady 9))
            (Ok {| out_text := Some (js "new") |}) Samples.two_projects))
    = Some project
    ∧ p_id project = js "1".
Proof.
  destruct (refine_then_effect_shows_revision (js "1")
              (Samples.sec "s1" "Intro" "text") (js "shorten") (Some (js "tok"))
              {| out_text := Some (js "new") |} Samples.ticking (steady 9) None
              Samples.two_projects)
    as (project & _ & _ & Hid & _ & _ & _ & Hcur & _).
  - reflexivity.
  - eexists. split; reflexivity.
  - exists Samples.report. split; [apply list_elem_of_here | reflexivity].
  - intros p Hp Hid.
    apply elem_of_cons in Hp as [-> | Hp]; [discriminate |].
    apply elem_of_cons in Hp as [-> | Hp]; [vm_compute in Hid; discriminate |].
    by apply elem_of_nil in Hp.
  - exists project. split; [exact Hcur | exact Hid].
Defined.

(** X8: [handleRefine] writes the store only from a successful response.
    With a blank prompt, or with a null or empty token, it issues no
    request and tells the user why; when the request fails it logs and
    tells the failure; in all these cases the store is left as it is. *)
Theorem handleRefine_writes_only_on_success
    projectId section refinementPrompt token now later :
  let a := handleRefine projectId section refinementPrompt token now later in
  (∀ st, act_sync a st = st)
  ∧ (∀ m st, act_settle a (Failed m) st = st)
  ∧ (blank refinementPrompt →
     act_call a = None
     ∧ act_tells a = [ToastError (js "Please enter a refinement prompt")]
     ∧ ∀ res st, act_settle a res st = st)
  ∧ (trim refinementPrompt ≠ [] → token = None ∨ token = Some [] →
     act_call a = None
     ∧ act_tells a = [ToastError (js "You must be logged in to refine content.")]
     ∧ ∀ res st, act_settle a res st = st)
  ∧ (trim refinementPrompt ≠ [] → (∃ t, token = Some t ∧ t ≠ []) →
     is_Some (act_call a) ∧ act_tells a = []
     ∧ ∀ m, act_says a (Failed m)
            = [ConsoleError (js "Refine failed");
               ToastError (js "Failed to refine content")]).
Proof.
  intros a. subst a. unfold handleRefine.
  split; [| split; [| split; [| split]]].
  - intros st. destruct (truthy (trim refinementPrompt)); [| done]. simpl.
    by destruct (truthy (default [] token)).
  - intros m st. destruct (truthy (trim refinementPrompt)); [| done]. simpl.
    by destruct (truthy (default [] token)).
  - intros Hb. by rewrite (trim_blank _ Hb).
  - intros Hp Ht. apply truthy_nonempty in Hp. rewrite Hp. simpl.
    by destruct Ht as [-> | ->].
  - intros Hp (t & -> & Ht). apply truthy_nonempty in Hp, Ht.
    rewrite Hp. simpl. rewrite Ht. simpl. split; [by eexists | done].
Qed.

Lemma handleRefine_writes_only_on_success_witness :
  act_call (handleRefine (js "1") (Samples.sec "s1" "Intro" "text") (js "  ")
              (Some (js "tok")) Samples.ticking (steady 9)) = None
  ∧ act_call (handleRefine (js "1") (Samples.sec "s1" "Intro" "text")
                (js "shorten") (Some []) Samples.ticking (steady 9)) = None
  ∧ is_Some (act_call (handleRefine (js "1") (Samples.sec "s1" "Intro" "text")
                         (js "shorten") (Some (js "tok"))
                         Samples.ticking (steady 9))).
Proof.
  split; [| split].
  - destruct (handleRefine_writes_only_on_success (js "1")
                (Samples.sec "s1" "Intro" "text") (js "  ") (Some (js "tok"))
                Samples.ticking (steady 9))
      as (_ & _ & Hblank & _).
    apply Hblank. vm_compute. repeat constructor.
  - destruct (handleRefine_writes_only_on_success (js "1")
                (Samples.sec "s1" "Intro" "text") (js "shorten") (Some [])
                Samples.ticking (steady 9))
      as (_ & _ & _ & Htoken & _).
    apply Htoken; [vm_compute; discriminate | by right].
  - destruct (handleRefine_writes_only_on_success (js "1")
                (Samples.sec "s1" "Intro" "text") (js "shorten")
                (Some (js "tok")) Samples.ticking (steady 9))
      as (_ & _ & _ & _ & Hrun).
    apply Hrun; [vm_compute; discriminate |].
    eexists. split; [reflexivity | vm_compute; discriminate].
Defined.

(** X9: [handleAddComment] drops a blank comment: no request, no toast,
    no write; any other comment is handed to [addComment] as typed, not
    trimmed, and the user is told at once that it was added. *)
Theorem handleAddComment_ignores_blank projectId section comment now :
  let a := handleAddComment projectId section comment now in
  (blank comment →
   act_call a = None ∧ act_tells a = [] ∧ ∀ st, act_sync a st = st)
  ∧ (trim comment ≠ [] →
     act_call a
     = Some {| call_method := POST;
               call_url := js "/api/projects/" ++ projectId ++ js "/comment";
               call_body := BodyComment (s_id section) comment |}
     ∧ act_tells a = [ToastSuccess (js "Comment added")]
     ∧ ∀ st, act_sync a st = addComment_set projectId (s_id section) comment now st).
Proof.
  intros a. subst a. unfold handleAddComment. split.
  - intros Hb. by rewrite (trim_blank _ Hb).
  - intros Hc. apply truthy_nonempty in Hc. by rewrite Hc.
Qed.

Lemma handleAddComment_ignores_blank_witness :
  act_call (handleAddComment (js "1") (Samples.sec "s1" "Intro" "text")
              (js " ") Samples.ticking) = None
  ∧ act_tells (handleAddComment (js "1") (Samples.sec "s1" "Intro" "text")
                 (js " ok ") Samples.ticking) = [ToastSuccess (js "Comment added")].
Proof.
  split.
  - destruct (handleAddComment_ignores_blank (js "1")
                (Samples.sec "s1" "Intro" "text") (js " ") Samples.ticking)
      as [Hblank _].
    apply Hblank. vm_compute. repeat constructor.
  - destruct (handleAddComment_ignores_blank (js "1")
                (Samples.sec "s1" "Intro" "text") (js " ok ") Samples.ticking)
      as [_ Hsome].
    apply Hsome. vm_compute. discriminate.
Defined.

(** X10: the delete button of the dashboard tells ['Project deleted'] at
    once, while every project is still in the store; when the request
    then fails, every project stays and only the console is told. *)
Theorem handleDeleteProject_tells_before_deleting projectId st :
  let a := handleDeleteProject projectId in
  act_tells a = [ToastSuccess (js "Project deleted")]
  ∧ act_sync a st = st
  ∧ (∀ m, act_settle a (Failed m) (act_sync a st) = st
          ∧ act_says a (Failed m) = [ConsoleError (js "Failed to delete project")])
  ∧ (∀ d p, p ∈ projects (act_settle a (Ok d) (act_sync a st))
            ↔ p ∈ projects st ∧ p_id p ≠ projectId).
Proof.
  simpl. split; [done |]. split; [done |]. split; [done |].
  intros d p. rewrite list_elem_of_filter. tauto.
Qed.

Lemma handleDeleteProject_tells_before_deleting_witness :
  Samples.report
  ∈ projects
      (act_settle (handleDeleteProject (js "2")) (Ok ())
         (act_sync (handleDeleteProject (js "2")) Samples.two_projects)).
Proof.
  destruct (handleDeleteProject_tells_before_deleting (js "2") Samples.two_projects)
    as (_ & _ & _ & Hleft).
  apply (Hleft () Samples.report). split.
  - apply list_elem_of_here.
  - vm_compute. discriminate.
Defined.

Lemma updateSection_section_at projectId sectionId updates now st i j :
  section_at (updateSection projectId sectionId updates now st) i j
  = (λ '(p, s),
       (on_section projectId sectionId (λ s, apply_updates s updates)
          (at_entry now i) p,
        if decide (p_id p = projectId ∧ s_id s = sectionId)
        then apply_updates s updates else s))
      <$> section_at st i j.
Proof.
  unfold section_at. simpl. rewrite list_lookup_imap.
  destruct (projects st !! i) as [p|]; [| done]. simpl.
  rewrite on_section_lookup. by destruct (p_sections p !! j).
Qed.

(** X27: the like and dislike buttons of the refinement panel write the
    store and nothing else: no request is issued; every section stays in
    place with its id, title, content, order, revisions and comments;
    the sections targeted get the flag, the others keep theirs; and of
    two feedbacks on a section the later one stands. *)
Theorem feedback_sets_flag_only liked projectId section now st :
  let a := handleFeedback liked projectId section now in
  let st' := act_sync a st in
  act_call a = None
  ∧ (∀ res st0, act_settle a res st0 = st0)
  ∧ (∀ i j p s, section_at st i j = Some (p, s) →
       ∃ p' s', section_at st' i j = Some (p', s')
                ∧ s_id s' = s_id s ∧ s_title s' = s_title s
                ∧ s_content s' = s_content s ∧ s_order s' = s_order s
                ∧ s_revisions s' = s_revisions s ∧ s_comments s' = s_comments s
                ∧ s_liked s'
                  = if decide (p_id p = projectId ∧ s_id s = s_id section)
                    then Some liked else s_liked s)
  ∧ (∀ earlier now0,
       act_sync a (act_sync (handleFeedback earlier projectId section now0) st)
       = st').
Proof.
  simpl. split; [done |]. split; [done |]. split.
  - intros i j p s Hat. rewrite updateSection_section_at, Hat. simpl.
    eexists _, _. split; [reflexivity |].
    destruct (decide (p_id p = projectId ∧ s_id s = s_id section)); done.
  - intros earlier now0. by rewrite updateSection_compose.
Qed.

Lemma feedback_sets_flag_only_witness :
  ∃ p' s',
    section_at (act_sync (handleLike (js "1") (Samples.sec "s1" "Intro" "text")
                            Samples.ticking)
                  Samples.two_projects) 0 0 = Some (p', s')
    ∧ s_liked s' = Some true.
Proof.
  destruct (feedback_sets_flag_only true (js "1")
              (Samples.sec "s1" "Intro" "text") Samples.ticking
              Samples.two_projects)
    as (_ & _ & Hat & _).
  destruct (Hat 0 0 Samples.report (Samples.sec "s1" "Intro" "text") eq_refl)
    as (p' & s' & Hs' & _ & _ & _ & _ & _ & _ & Hl).
  exists p', s'. split; [exact Hs' | exact Hl].
Defined.

End PageFacts.

(* ===================================================================== *)
(** * Facts about the auth store and the requests it authorizes *)
(* ===================================================================== *)

Section AuthFacts.
Implicit Types (st : AuthState) (ev : AuthEvent) (c : ApiCall).

Lemma auth_step_clean ev st : signed_out_clean st → signed_out_clean (auth_step ev st).
Proof.
  unfold signed_out_clean. intros Hst.
  destruct ev as [[d|m] | [u|m] [d|m'] | | | w]; simpl; try done.
  unfold startup_cleanup. destruct w; [| done].
  destruct (bool_decide _ || auth_useMockMode st); done.
Qed.

Lemma auth_run_clean evs st : signed_out_clean st → signed_out_clean (auth_run evs st).
Proof.
  revert st. induction evs as [|ev evs IH]; intros st Hst; [done |].
  apply IH. by apply auth_step_clean.
Qed.

(** X11: whatever logins, signups, logouts, mock-mode toggles and
    start-up cleanups happen to the auth store as created, a store that
    is not authenticated holds no token and no user; so a token in the
    store means that the store is authenticated. *)
Theorem unauthenticated_store_has_no_token evs :
  let st := auth_run evs auth_initial in
  (auth_isAuthenticated st = false → auth_token st = None ∧ auth_user st = None)
  ∧ (is_Some (auth_token st) → auth_isAuthenticated st = true).
Proof.
  intros st.
  assert (H : signed_out_clean st) by (by apply auth_run_clean).
  split; [exact H |]. intros [t Ht].
  destruct (auth_isAuthenticated st) eqn:Ha; [done |].
  destruct (H Ha) as [Hn _]. congruence.
Qed.

Lemma unauthenticated_store_has_no_token_witness :
  auth_token
    (auth_run [EvLogin (Ok {| ld_token := Some (js "tok"); ld_user := None |});
               EvToggleMockMode; EvLogout] auth_initial) = None.
Proof.
  apply (unauthenticated_store_has_no_token
           [EvLogin (Ok {| ld_token := Some (js "tok"); ld_user := None |});
            EvToggleMockMode; EvLogout]).
  reflexivity.
Defined.

Lemma authorization_spec env token c :
  authorization env token c
  = match token with
    | Some t => if truthy t then Some (js "Bearer " ++ t) else None
    | None => None
    end.
Proof.
  unfold authorization, send, request_interceptor. simpl.
  destruct token as [t|]; [destruct (truthy t) |]; simpl.
  - apply lookup_insert_eq.
  - apply lookup_singleton_ne, header_names_differ.
  - apply lookup_singleton_ne, header_names_differ.
Qed.

(** X12: the token of the auth store decides the header of the next
    request: after a login that the server answers with a non-empty
    token, and after a signup whose login does so, requests carry
    [Bearer] and that token; after [logout] they carry no
    [Authorization] header; a failed login leaves the header as it
    was. *)
Theorem session_decides_authorization env st c :
  (∀ data t, ld_token data = Some t → t ≠ [] →
     authorization env (auth_token (login_settle (Ok data) st)) c
     = Some (js "Bearer " ++ t))
  ∧ (∀ user data t, ld_token data = Some t → t ≠ [] →
     authorization env (auth_token (signup_settle (Ok user) (Ok data) st)) c
     = Some (js "Bearer " ++ t))
  ∧ authorization env (auth_token (logout st)) c = None
  ∧ (∀ m, authorization env (auth_token (login_settle (Failed m) st)) c
          = authorization env (auth_token st) c).
Proof.
  split; [| split; [| split]].
  - intros data t Ht Hne. rewrite authorization_spec. simpl. rewrite Ht.
    apply truthy_nonempty in Hne. by rewrite Hne.
  - intros user data t Ht Hne. rewrite authorization_spec. simpl. rewrite Ht.
    apply truthy_nonempty in Hne. by rewrite Hne.
  - by rewrite authorization_spec.
  - done.
Qed.

Lemma session_decides_authorization_witness :
  authorization None
    (auth_token (login_settle
                   (Ok {| ld_token := Some (js "tok"); ld_user := None |})
                   auth_initial))
    Samples.get_projects
  = Some (js "Bearer tok").
Proof.
  destruct (session_decides_authorization None auth_initial Samples.get_projects)
    as [Hlogin _].
  apply (Hlogin {| ld_token := Some (js "tok"); ld_user := None |} (js "tok"));
    [reflexivity | discriminate].
Defined.

(** X13: after the start-up cleanup in a browser the store holds neither
    the mock token nor mock mode; a store that held neither is left
    untouched, one that held either is reset to the state of a fresh
    store; running the cleanup again changes nothing; outside a browser
    nothing is done. *)
Theorem startup_cleanup_removes_mock_session st :
  let st' := startup_cleanup true st in
  auth_token st' ≠ Some (js "mock-token")
  ∧ auth_useMockMode st' = false
  ∧ (auth_token st ≠ Some (js "mock-token") → auth_useMockMode st = false →
     st' = st)
  ∧ (auth_token st = Some (js "mock-token") ∨ auth_useMockMode st = true →
     st' = auth_initial)
  ∧ startup_cleanup true st' = st'
  ∧ startup_cleanup false st = st.
Proof.
  unfold startup_cleanup.
  destruct (bool_decide (auth_token st = Some (js "mock-token"))) eqn:Hb;
    destruct (auth_useMockMode st) eqn:Hm; simpl.
  - apply bool_decide_eq_true in Hb. repeat split; try done; try (by intros N _).
  - apply bool_decide_eq_true in Hb. repeat split; try done; try (by intros N _).
  - repeat split; try done.
  - assert (Hb' := Hb). apply bool_decide_eq_false in Hb.
    repeat split; try done; try (by intros [E | E]); try (by rewrite Hb', Hm).
Qed.

Lemma startup_cleanup_removes_mock_session_witness :
  startup_cleanup true
    {| auth_user := None; auth_token := Some (js "mock-token");
       auth_isAuthenticated := true; auth_useMockMode := false |}
  = auth_initial.
Proof.
  destruct (startup_cleanup_removes_mock_session
              {| auth_user := None; auth_token := Some (js "mock-token");
                 auth_isAuthenticated := true; auth_useMockMode := false |})
    as (_ & _ & _ & Hreset & _).
  apply Hreset. by left.
Defined.

(** X14: [signup] asks for the login only once the signup has
    succeeded, and writes the store only when both requests have
    succeeded, with the user of the signup response and the token of the
    login response; otherwise the store is as before. *)
Theorem signup_needs_both_requests name email password signed logged st :
  (PostLogin email password ∈ signup_requests name email password signed
   ↔ ∃ user, signed = Ok user)
  ∧ (signup_settle signed logged st ≠ st →
     ∃ user data, signed = Ok user ∧ logged = Ok data)
  ∧ (∀ user data, signed = Ok user → logged = Ok data →
     auth_user (signup_settle signed logged st) = Some user
     ∧ auth_token (signup_settle signed logged st) = ld_token data
     ∧ auth_isAuthenticated (signup_settle signed logged st) = true
     ∧ auth_useMockMode (signup_settle signed logged st) = auth_useMockMode st).
Proof.
  split; [| split].
  - unfold signup_requests. destruct signed as [user|m]; split.
    + intros _. by exists user.
    + intros _. apply elem_of_cons. right. apply list_elem_of_here.
    + intros H. apply elem_of_cons in H as [[=] | H]. by apply elem_of_nil in H.
    + intros [user [=]].
  - destruct signed as [user|m], logged as [data|m']; simpl; try done.
    intros _. by exists user, data.
  - by intros user data -> ->.
Qed.

Lemma signup_needs_both_requests_witness :
  auth_token
    (signup_settle
       (Ok {| user_id := js "1"; user_email := js "a@x.com"; user_name := js "Alice" |})
       (Ok {| ld_token := Some (js "tok"); ld_user := None |}) auth_initial)
  = Some (js "tok").
Proof.
  destruct (signup_needs_both_requests (js "Alice") (js "a@x.com") (js "pw")
              (Ok {| user_id := js "1"; user_email := js "a@x.com";
                     user_name := js "Alice" |})
              (Ok {| ld_token := Some (js "tok"); ld_user := None |})
              auth_initial) as (_ & _ & Hboth).
  destruct (Hboth _ _ eq_refl eq_refl) as (_ & Htok & _). exact Htok.
Defined.

End AuthFacts.

(* ===================================================================== *)
(** * Facts about the wizard's section list *)
(* ===================================================================== *)

Section WizardListFacts.
Implicit Types (sections : list WizardSection) (s : WizardSection).

Lemma js_cons a (str : string) :
  js (String a str) = Ascii.N_of_ascii a :: js str.
Proof. reflexivity. Qed.

Lemma js_inj (s1 s2 : string) : js s1 = js s2 → s1 = s2.
Proof.
  revert s2. induction s1 as [|a s1 IH]; intros [|b s2]; try done.
  rewrite !js_cons. intros [= Hab Hs]. f_equal; [| by apply IH].
  rewrite <- (Ascii.ascii_N_embedding a), <- (Ascii.ascii_N_embedding b).
  by rewrite Hab.
Qed.

Lemma to_int_parses z :
  NilZero.int_of_string (NilZero.string_of_int (Z.to_int z)) = Some (Z.to_int z).
Proof.
  apply NilZero.isi; destruct z as [|q|q]; simpl; try discriminate;
    intros [= E]; by apply (DecimalPos.Unsigned.to_uint_nonnil q).
Qed.

Lemma string_of_Z_inj a b : string_of_Z a = string_of_Z b → a = b.
Proof.
  unfold string_of_Z. intros H%js_inj. apply DecimalZ.to_int_inj.
  assert (Ha := to_int_parses a). rewrite H, to_int_parses in Ha. congruence.
Qed.

Lemma uint_no_hyphen u : Forall (λ c, c ≠ 45%N) (js (NilEmpty.string_of_uint u)).
Proof.
  induction u; simpl NilEmpty.string_of_uint; [constructor | ..];
    rewrite js_cons; (constructor; [vm_compute; discriminate | done]).
Qed.

Lemma nat_no_hyphen n : Forall (λ c, c ≠ 45%N) (string_of_Z (Z.of_nat n)).
Proof.
  unfold string_of_Z. destruct (Z.of_nat n) as [|q|q] eqn:E; [| | lia].
  - repeat constructor. vm_compute. discriminate.
  - simpl. unfold NilZero.string_of_uint.
    destruct (Pos.to_uint q) eqn:Eq; try (rewrite <- Eq; apply uint_no_hyphen).
    repeat constructor. vm_compute. discriminate.
Qed.

Lemma before_hyphen (x y u v : jsstring) :
  Forall (λ c, c ≠ 45%N) x → Forall (λ c, c ≠ 45%N) y →
  x ++ 45%N :: u = y ++ 45%N :: v → x = y.
Proof.
  intros Hx. revert y. induction Hx as [|a x Ha Hx IH]; intros y Hy; simpl.
  - destruct Hy as [|b y Hb Hy]; [done |]. simpl. intros [= E _]. by subst.
  - destruct Hy as [|b y Hb Hy]; simpl.
    + intros [= E _]. by subst.
    + intros [= -> E]. f_equal. by apply IH.
Qed.

Lemma after_hyphen (a b d1 d2 : jsstring) :
  Forall (λ c, c ≠ 45%N) d1 → Forall (λ c, c ≠ 45%N) d2 →
  a ++ js "-" ++ d1 = b ++ js "-" ++ d2 → d1 = d2.
Proof.
  intros H1 H2 E. apply (f_equal reverse) in E.
  change (js "-") with [45%N] in E. rewrite !reverse_app in E.
  simpl in E. rewrite <- !app_assoc in E. simpl in E.
  apply before_hyphen in E; [| by apply Forall_reverse ..].
  by apply (inj reverse).
Qed.

Lemma ids_filter_out id sections :
  id ∉ (ws_id <$> sections) → filter (λ s, ws_id s ≠ id) sections = sections.
Proof.
  intros Hid. apply filter_all, Forall_forall. intros s Hs E.
  apply Hid. rewrite <- E. by apply list_elem_of_fmap_2.
Qed.

Lemma remove_keeps_one id sections :
  NoDup (ws_id <$> sections) → sections ≠ [] →
  handleRemoveSection id sections ≠ [].
Proof.
  unfold handleRemoveSection. intros Hnd Hne.
  destruct (bool_decide (1 < length sections)) eqn:Hlen; [| done].
  apply bool_decide_eq_true in Hlen.
  destruct sections as [|a [|b rest]]; simpl in Hlen; [lia | lia |].
  rewrite !fmap_cons in Hnd. apply NoDup_cons in Hnd as [Hab _].
  destruct (decide (ws_id a = id)) as [Ea|Na].
  - rewrite filter_cons_False by (intros H; by apply H).
    rewrite filter_cons_True; [done |].
    intros Eb. apply Hab. rewrite Ea, <- Eb. apply list_elem_of_here.
  - by rewrite filter_cons_True.
Qed.

Lemma remove_sublist id sections :
  handleRemoveSection id sections `sublist_of` sections.
Proof.
  unfold handleRemoveSection.
  destruct (bool_decide _); [apply sublist_filter | done].
Qed.

Lemma dragEnd_moves source d item sections :
  sections !! source = Some item →
  handleDragEnd source (Some d) sections
  = Some (take d (delete source sections) ++ item :: drop d (delete source sections))
  ∧ take d (delete source sections) ++ item :: drop d (delete source sections)
    ≡ₚ sections.
Proof.
  intros Hitem. unfold handleDragEnd, splice_out, splice_in. rewrite Hitem.
  split; [done |].
  rewrite <- Permutation_middle, take_drop.
  symmetry. by apply delete_Permutation.
Qed.

Lemma applySuggested_ids_distinct now (suggestedTitles : list jsstring) :
  NoDup (ws_id <$> handleApplySuggested now suggestedTitles).
Proof.
  unfold handleApplySuggested.
  apply NoDup_alt. intros i j x.
  rewrite !list_lookup_fmap, !list_lookup_imap.
  destruct (suggestedTitles !! i) as [ti|]; [| done].
  destruct (suggestedTitles !! j) as [tj|]; [| done].
  simpl. intros [= <-] [= E].
  apply after_hyphen in E; [| apply nat_no_hyphen ..].
  apply string_of_Z_inj in E. lia.
Qed.

(** X15: [handleRemoveSection] keeps a list of one section as it is, and
    keeps any list from which the id is absent; when the ids are
    distinct and more than one section is listed, the section of that id
    is taken out and the others stay in their order; so, with distinct
    ids, the wizard never runs out of sections. *)
Theorem handleRemoveSection_removes_one id sections :
  (length sections ≤ 1 → handleRemoveSection id sections = sections)
  ∧ (id ∉ (ws_id <$> sections) → handleRemoveSection id sections = sections)
  ∧ (NoDup (ws_id <$> sections) → 1 < length sections →
     ∀ l1 s l2, sections = l1 ++ s :: l2 → ws_id s = id →
                handleRemoveSection id sections = l1 ++ l2)
  ∧ (NoDup (ws_id <$> sections) → sections ≠ [] →
     handleRemoveSection id sections ≠ [])
  ∧ handleRemoveSection id sections `sublist_of` sections.
Proof.
  unfold handleRemoveSection. split; [| split; [| split; [| split]]].
  - intros Hlen. by rewrite bool_decide_eq_false_2 by lia.
  - intros Hid. destruct (bool_decide _); [by apply ids_filter_out | done].
  - intros Hnd Hlen l1 s l2 -> Hs. rewrite bool_decide_eq_true_2 by done.
    rewrite fmap_app, fmap_cons, Hs in Hnd.
    apply NoDup_app in Hnd as (_ & H1 & Hnd).
    apply NoDup_cons in Hnd as [H2 _].
    rewrite filter_app, filter_cons_False by (intros H; by apply H).
    rewrite !ids_filter_out; [done | done |].
    intros Hin. apply (H1 id Hin). apply list_elem_of_here.
  - apply remove_keeps_one.
  - apply remove_sublist.
Qed.

Lemma handleRemoveSection_removes_one_witness :
  handleRemoveSection (js "2") (w_sections Samples.wizard)
  = [ {| ws_id := js "1"; ws_title := js "Introduction" |};
      {| ws_id := js "3"; ws_title := js "Results" |} ].
Proof.
  destruct (handleRemoveSection_removes_one (js "2") (w_sections Samples.wizard))
    as (_ & _ & Hone & _).
  assert (Hnd : NoDup (ws_id <$> w_sections Samples.wizard)).
  { apply (bool_decide_unpack _). vm_compute. exact I. }
  assert (Hlen : 1 < length (w_sections Samples.wizard)) by (simpl; lia).
  apply (Hone Hnd Hlen
              [ {| ws_id := js "1"; ws_title := js "Introduction" |} ]
              {| ws_id := js "2"; ws_title := js "  " |}
              [ {| ws_id := js "3"; ws_title := js "Results" |} ]);
    reflexivity.
Defined.

(** X16: [handleDragEnd] keeps the list when the drop has no
    destination; when a section sits at the source index it moves that
    section to the destination index, or to the end when the index is
    past it: the list keeps its sections and its length. *)
Theorem handleDragEnd_moves_one source destination sections :
  (destination = None →
   handleDragEnd source destination sections = Some sections)
  ∧ (∀ d item, destination = Some d → sections !! source = Some item →
       ∃ items, handleDragEnd source destination sections = Some items
                ∧ items ≡ₚ sections
                ∧ length items = length sections
                ∧ items !! (d `min` (length sections - 1)) = Some item)
  ∧ (∀ d, destination = Some d → length sections ≤ source →
       handleDragEnd source destination sections = None).
Proof.
  split; [by intros -> | split].
  - intros d item -> Hitem.
    destruct (dragEnd_moves source d item sections Hitem) as [Hrun Hperm].
    eexists. split; [exact Hrun |].
    assert (Hlen : length (delete source sections) = length sections - 1).
    { rewrite length_delete; [done | by eexists]. }
    split; [exact Hperm | split].
    + by rewrite Hperm.
    + rewrite <- Hlen. apply list_lookup_middle. by rewrite length_take.
  - intros d -> Hlen. unfold handleDragEnd, splice_out.
    by rewrite (lookup_ge_None_2 _ _ Hlen).
Qed.

Lemma handleDragEnd_moves_one_witness :
  ∃ items,
    handleDragEnd 0 (Some 2) (w_sections Samples.wizard) = Some items
    ∧ items !! 2 = Some {| ws_id := js "1"; ws_title := js "Introduction" |}.
Proof.
  destruct (handleDragEnd_moves_one 0 (Some 2) (w_sections Samples.wizard))
    as (_ & Hmove & _).
  destruct (Hmove 2 {| ws_id := js "1"; ws_title := js "Introduction" |}
              eq_refl eq_refl) as (items & Hitems & _ & _ & Hat).
  exists items. split; [exact Hitems | exact Hat].
Defined.

Lemma handleApplySuggested_titles now (suggestedTitles : list jsstring) :
  ws_title <$> handleApplySuggested now suggestedTitles = suggestedTitles.
Proof.
  unfold handleApplySuggested.
  rewrite fmap_imap. rewrite (imap_ext _ (const id)) by done.
  rewrite imap_const. apply list_fmap_id.
Qed.

(** X17: the sections that [handleApplySuggested] builds carry the
    suggested titles in order and pairwise distinct ids, whatever the
    clock reads for each entry. *)
Theorem handleApplySuggested_distinct_ids now suggestedTitles :
  ws_title <$> handleApplySuggested now suggestedTitles = suggestedTitles
  ∧ length (handleApplySuggested now suggestedTitles) = length suggestedTitles
  ∧ NoDup (ws_id <$> handleApplySuggested now suggestedTitles).
Proof.
  split; [apply handleApplySuggested_titles |].
  split; [apply length_imap | apply applySuggested_ids_distinct].
Qed.

Lemma update_keeps_ids id title sections :
  ws_id <$> handleUpdateSection id title sections = ws_id <$> sections.
Proof.
  unfold handleUpdateSection. rewrite <- list_fmap_compose.
  apply list_fmap_ext. intros k s _. simpl. by destruct (decide _).
Qed.

(** X24: from the section list that the wizard starts with, through
    additions at clock readings not yet used as an id, removals, title
    edits, drags of a listed section and accepted outline dialogs, the
    list is never empty and its ids stay pairwise distinct. *)
Theorem wizard_sections_never_empty sections :
  wizard_reachable sections →
  sections ≠ [] ∧ NoDup (ws_id <$> sections).
Proof.
  induction 1 as [|ev sections sections' _ [Hne Hnd] Hok Hev].
  - split; [done | apply NoDup_singleton].
  - destruct ev as [now | id | id title | source destination | now raw edited];
      simpl in Hev, Hok.
    + injection Hev as <-. unfold handleAddSection. split.
      * by destruct sections.
      * rewrite fmap_app. apply NoDup_app. split; [done |]. split.
        -- intros x Hx Hin. apply list_elem_of_singleton in Hin. by subst.
        -- apply NoDup_singleton.
    + injection Hev as <-. split; [by apply remove_keeps_one |].
      eapply sublist_NoDup; [exact Hnd |].
      apply fmap_sublist, remove_sublist.
    + injection Hev as <-. split.
      * unfold handleUpdateSection. by destruct sections.
      * by rewrite update_keeps_ids.
    + destruct destination as [d|]; [| by injection Hev as <-].
      destruct (sections !! source) as [item|] eqn:Hitem.
      * destruct (dragEnd_moves source d item sections Hitem) as [Hrun Hperm].
        rewrite Hrun in Hev. injection Hev as <-. split.
        -- intros E. apply (f_equal length) in E. rewrite Hperm in E.
           by destruct sections.
        -- by rewrite Hperm.
      * unfold handleDragEnd, splice_out in Hev. by rewrite Hitem in Hev.
    + injection Hev as <-. destruct Hok as (titles & Hopen & Hlen). split.
      * intros E. apply (f_equal length) in E.
        unfold handleApplySuggested in E. rewrite length_imap, Hlen in E.
        unfold suggested_outline in Hopen.
        destruct (or_empty raw); [done |]. injection Hopen as <-. done.
      * apply applySuggested_ids_distinct.
Qed.

Lemma wizard_sections_never_empty_witness :
  handleRemoveSection (js "1")
    (handleAddSection 7 [{| ws_id := js "1"; ws_title := js "Introduction" |}])
  ≠ [].
Proof.
  apply (wizard_sections_never_empty
           (handleRemoveSection (js "1")
              (handleAddSection 7
                 [{| ws_id := js "1"; ws_title := js "Introduction" |}]))).
  apply (wizard_next (WRemove (js "1"))
           (handleAddSection 7 [{| ws_id := js "1"; ws_title := js "Introduction" |}]));
    [| exact I | reflexivity].
  apply (wizard_next (WAdd 7)
           [{| ws_id := js "1"; ws_title := js "Introduction" |}]);
    [apply wizard_start | | reflexivity].
  simpl. intros H. apply list_elem_of_singleton in H. vm_compute in H. discriminate.
Defined.

End WizardListFacts.

(* ===================================================================== *)
(** * From the wizard to the workspace *)
(* ===================================================================== *)

Section CreationFacts.
Implicit Types (w : Wizard) (st : ProjectState) (titles : list jsstring).

Lemma titles_of_valid (sections : list WizardSection) :
  ws_title <$> filter (λ s, Is_true (truthy (trim (ws_title s)))) sections
  = filter (λ t, trim t ≠ []) (ws_title <$> sections).
Proof.
  induction sections as [|s l IH]; [done |].
  rewrite fmap_cons, !filter_cons.
  destruct (decide (Is_true (truthy (trim (ws_title s))))) as [Ht|Hn].
  - rewrite decide_True by (by apply titled_iff). by rewrite fmap_cons, IH.
  - rewrite decide_False by (by rewrite <- titled_iff). done.
Qed.

Lemma blank_titles_filtered titles :
  Forall (λ t, trim t = []) titles → filter (λ t, trim t ≠ []) titles = [].
Proof.
  induction 1 as [|t l Ht _ IH]; [done |].
  by rewrite filter_cons_False by (intros H; by apply H).
Qed.

Lemma projectSections_titles w :
  s_title <$> projectSections w = filter (λ t, trim t ≠ []) (ws_title <$> w_sections w).
Proof.
  unfold projectSections, validSections. rewrite fmap_imap.
  rewrite (imap_ext _ (const ws_title)) by done.
  rewrite imap_const. apply titles_of_valid.
Qed.

Lemma projectSections_orders w :
  s_order <$> projectSections w = seq 0 (length (validSections w)).
Proof.
  unfold projectSections. rewrite fmap_imap.
  rewrite (imap_ext _ (λ j _, j)) by done.
  rewrite (imap_seq_0 (validSections w) (λ j, j)). apply list_fmap_id.
Qed.

(** X18: applying a suggested outline and creating the project submits
    the suggested titles that are not blank, in the suggested order and
    numbered from 0; when every suggested title is blank, nothing is
    submitted. *)
Theorem outline_applied_then_created now titles title docType topic :
  let w := {| w_title := title; w_docType := docType; w_topic := topic;
              w_sections := handleApplySuggested now titles |} in
  s_title <$> projectSections w = filter (λ t, trim t ≠ []) titles
  ∧ s_order <$> projectSections w
    = seq 0 (length (filter (λ t, trim t ≠ []) titles))
  ∧ (Exists (λ t, trim t ≠ []) titles →
     act_call (handleCreate w)
     = Some {| call_method := POST; call_url := js "/api/projects/";
               call_body :=
                 BodyProject {| np_title := title; np_docType := docType;
                                np_topic := topic;
                                np_sections := projectSections w |} |})
  ∧ (Forall (λ t, trim t = []) titles → act_call (handleCreate w) = None).
Proof.
  intros w.
  pose proof (handleApplySuggested_titles now titles) as Htitles.
  assert (Hs : s_title <$> projectSections w = filter (λ t, trim t ≠ []) titles).
  { rewrite projectSections_titles. simpl. by rewrite Htitles. }
  assert (Hlen : length (validSections w)
                 = length (filter (λ t, trim t ≠ []) titles)).
  { rewrite <- Hs. rewrite length_fmap. unfold projectSections.
    by rewrite length_imap. }
  split; [exact Hs |]. split; [by rewrite projectSections_orders, Hlen |]. split.
  - intros Hex. unfold handleCreate.
    rewrite bool_decide_eq_false_2; [done |]. rewrite Hlen.
    apply Exists_exists in Hex as (t & Hin & Ht).
    assert (Hf : t ∈ filter (λ t, trim t ≠ []) titles)
      by (by apply list_elem_of_filter).
    destruct (filter _ titles); [by apply elem_of_nil in Hf | done].
  - intros Hall. unfold handleCreate.
    rewrite bool_decide_eq_true_2; [done |]. rewrite Hlen.
    by rewrite (blank_titles_filtered titles Hall).
Qed.

Lemma outline_applied_then_created_witness :
  act_call
    (handleCreate
       {| w_title := js "T"; w_docType := docx; w_topic := js "x";
          w_sections := handleApplySuggested (λ _, 5%Z) [js " "] |})
  = None.
Proof.
  destruct (outline_applied_then_created (λ _, 5%Z) [js " "] (js "T") docx (js "x"))
    as (_ & _ & _ & Hblank).
  apply Hblank. repeat constructor.
Defined.

(** X19: a section added in the wizard and left untitled changes nothing
    of what [handleCreate] submits. *)
Theorem untitled_section_not_submitted now w :
  let w' := {| w_title := w_title w; w_docType := w_docType w;
               w_topic := w_topic w;
               w_sections := handleAddSection now (w_sections w) |} in
  projectSections w' = projectSections w
  ∧ act_call (handleCreate w') = act_call (handleCreate w).
Proof.
  intros w'.
  assert (Hv : validSections w' = validSections w).
  { subst w'. unfold validSections, handleAddSection. simpl.
    rewrite filter_app, filter_cons_False by (simpl; tauto).
    by rewrite filter_nil, app_nil_r. }
  assert (Hp : projectSections w' = projectSections w).
  { unfold projectSections. by rewrite Hv. }
  split; [exact Hp |]. unfold handleCreate. rewrite Hv.
  destruct (bool_decide _); [done |]. simpl. by rewrite Hp.
Qed.

(** X20: once [handleCreate] has succeeded, with a create response whose
    [sections] is an array, it navigates to the route of the created
    project, and the effect of the workspace on that route finds a
    project of that id in the store, so it does not go back to the
    dashboard; the project found is the created one when no older project
    had the id. *)
Theorem created_project_opens w (raw : RawCreated) selected st :
  Exists (λ s, trim (ws_title s) ≠ []) (w_sections w) →
  let created := normalizeCreated raw in
  let st' := act_settle (handleCreate w) (Ok raw) st in
  let step := workspace_effect (Some (p_id created)) selected st' in
  act_returns (handleCreate w) (Ok raw) = Some (js "/project/" ++ p_id created)
  ∧ step_navigate step = None
  ∧ (∃ p, find_project (Some (p_id created)) (projects st') = Some p
          ∧ p_id p = p_id created
          ∧ step_action step = setCurrentProject (Some p))
  ∧ ((∀ q, q ∈ projects st → p_id q ≠ p_id created) →
     find_project (Some (p_id created)) (projects st') = Some created).
Proof.
  intros Hex created st' step.
  assert (Hne : validSections w ≠ []).
  { rewrite validSections_nil. intros Hall.
    apply Exists_exists in Hex as (s & Hs & Ht).
    rewrite Forall_forall in Hall. by apply Ht, Hall. }
  assert (Hrun : bool_decide (length (validSections w) = 0) = false).
  { apply bool_decide_eq_false_2. by destruct (validSections w). }
  assert (Hst' : projects st' = projects st ++ [created]).
  { subst st'. unfold handleCreate. by rewrite Hrun. }
  split; [unfold handleCreate; by rewrite Hrun |].
  destruct (find_project_exists (p_id created) (projects st') created)
    as [p Hp]; [rewrite Hst'; apply elem_of_app; right; apply list_elem_of_here
               | done |].
  destruct (find_project_found _ _ _ Hp) as [_ Hid].
  subst step. unfold workspace_effect. rewrite Hp. simpl.
  split; [done |]. split; [by exists p |].
  intros Hfresh. rewrite <- Hp, Hst'. by apply find_last_fresh.
Qed.

Lemma created_project_opens_witness :
  step_navigate
    (workspace_effect (Some (js "3")) None
       (act_settle (handleCreate Samples.wizard) (Ok Samples.raw_created)
          Samples.two_projects))
  = None.
Proof.
  destruct (created_project_opens Samples.wizard Samples.raw_created None
              Samples.two_projects) as (_ & Hnav & _).
  - apply Exists_cons_hd. vm_compute. discriminate.
  - exact Hnav.
Defined.

End CreationFacts.

(* ===================================================================== *)
(** * Further facts about the export and the interceptor *)
(* ===================================================================== *)

Section ExportFacts.
Implicit Types (p : Project) (tpl : option Template) (t b : jsstring).

Lemma sanitize_safe t : Forall (λ c, is_name_unit c = true) (sanitize t).
Proof.
  unfold sanitize. apply Forall_fmap, Forall_forall. intros c _. simpl.
  by destruct (is_name_unit c) eqn:Hc.
Qed.

Lemma sanitize_fixed t : Forall (λ c, is_name_unit c = true) t → sanitize t = t.
Proof.
  unfold sanitize. induction 1 as [|c t Hc _ IH]; [done |].
  rewrite fmap_cons, IH. by rewrite Hc.
Qed.

(** X21: the file that a successful export hands to the browser is named
    by a stem and the extension of the doc type; the stem is never
    empty, holds only ASCII letters, digits, [_] and [-], is as long as
    the project title when there is one, and is the title itself when
    the title holds only such characters. *)
Theorem export_file_name_is_safe p tpl blob :
  ∃ stem,
    act_returns (handleExport (Some p) tpl) (Ok blob)
    = Some (stem ++ js "." ++ docTypeString (p_docType p))
    ∧ stem ≠ []
    ∧ Forall (λ c, is_name_unit c = true) stem
    ∧ (p_title p ≠ [] → length stem = length (p_title p))
    ∧ (p_title p ≠ [] → Forall (λ c, is_name_unit c = true) (p_title p) →
       stem = p_title p).
Proof.
  assert (Hstem : ∀ fallback, fallback ≠ [] →
            sanitize (or_else (p_title p) fallback) ≠ []
            ∧ (p_title p ≠ [] →
               length (sanitize (or_else (p_title p) fallback))
               = length (p_title p))
            ∧ (p_title p ≠ [] →
               Forall (λ c, is_name_unit c = true) (p_title p) →
               sanitize (or_else (p_title p) fallback) = p_title p)).
  { intros fallback Hf. unfold or_else.
    destruct (p_title p) as [|c t] eqn:Ht; simpl.
    - split; [by destruct fallback | done].
    - split; [done |]. split.
      + intros _. unfold sanitize. by rewrite length_fmap.
      + intros _ Hsafe. by apply (sanitize_fixed (c :: t)). }
  unfold handleExport. destruct (p_docType p); simpl.
  - exists (sanitize (or_else (p_title p) (js "document"))).
    destruct (Hstem (js "document")) as (H1 & H2 & H3); [done |].
    split; [done |]. split; [done |]. split; [apply sanitize_safe | done].
  - exists (sanitize (or_else (p_title p) (js "presentation"))).
    destruct (Hstem (js "presentation")) as (H1 & H2 & H3); [done |].
    split; [done |]. split; [done |]. split; [apply sanitize_safe | done].
Qed.

Lemma export_file_name_is_safe_witness :
  ∃ stem,
    act_returns (handleExport (Some (Samples.proj "9" "Q3 plan" pptx [])) None)
      (Ok (BlobBytes []))
    = Some (stem ++ js ".pptx")
    ∧ length stem = 7.
Proof.
  destruct (export_file_name_is_safe (Samples.proj "9" "Q3 plan" pptx []) None
              (BlobBytes [])) as (stem & Hname & _ & _ & Hlen & _).
  exists stem. split; [exact Hname |]. apply Hlen. discriminate.
Defined.

Lemma trimStart_subseteq t : trimStart t ⊆ t.
Proof.
  destruct (trimStart_suffix t) as (ws & Ht & _).
  intros c Hc. rewrite Ht. apply elem_of_app. by right.
Qed.

Lemma trim_subseteq t : trim t ⊆ t.
Proof.
  unfold trim, trimEnd. intros c Hc.
  rewrite elem_of_reverse in Hc.
  apply (trimStart_subseteq (reverse (trimStart t)) c) in Hc.
  rewrite elem_of_reverse in Hc.
  by apply (trimStart_subseteq t c).
Qed.

Lemma lines_go_no_newline t cur :
  LF ∉ cur → Forall (λ l, LF ∉ l) (lines_go t cur).
Proof.
  revert cur. induction t as [|c t IH]; intros cur Hcur; simpl.
  - constructor; [| constructor]. by rewrite elem_of_reverse.
  - destruct (c =? LF)%N eqn:Hc.
    + constructor; [by rewrite elem_of_reverse |].
      apply IH. apply not_elem_of_nil.
    + apply IH. apply not_elem_of_cons. split; [| done].
      intros E. apply N.eqb_neq in Hc. by apply Hc.
Qed.

(** X22: a summary slide never has more than six bullets, and every
    bullet is a line of the section content, trimmed: it holds no
    newline. *)
Theorem bullets_are_single_lines content :
  length (bullets content) ≤ 6
  ∧ ∀ b, b ∈ bullets content →
         (LF ∉ b) ∧ (∃ l, l ∈ lines content ∧ b = trim l).
Proof.
  rewrite bullets_take. split; [rewrite length_take; lia |].
  intros b Hb. apply subseteq_take in Hb.
  unfold nonblank_lines in Hb.
  apply list_elem_of_filter in Hb as [_ Hb].
  apply list_elem_of_fmap in Hb as (l & -> & Hl). split; [| by exists l].
  intros Hin. apply trim_subseteq in Hin.
  assert (Hall := lines_go_no_newline content [] (not_elem_of_nil _)).
  rewrite Forall_forall in Hall. by apply (Hall l Hl).
Qed.

Lemma bullets_are_single_lines_witness : LF ∉ js "a".
Proof.
  destruct (bullets_are_single_lines two_lines) as [_ Hline].
  destruct (Hline (js "a")) as [Hlf _]; [| exact Hlf].
  vm_compute. apply list_elem_of_here.
Defined.

Lemma with_headers_twice config h1 h2 :
  with_headers (with_headers config h1) h2 = with_headers config h2.
Proof. done. Qed.

(** X23: the request interceptor leaves a configuration without headers
    as it is, and with a null or empty token it leaves every
    configuration as it is, a header [Authorization] already present
    included; with another token it writes [Authorization] over
    whatever was there and keeps every other header; applying it twice
    is applying it once. *)
Theorem request_interceptor_laws token config :
  request_interceptor token (request_interceptor token config)
  = request_interceptor token config
  ∧ (cfg_headers config = None → request_interceptor token config = config)
  ∧ (token = None ∨ token = Some [] → request_interceptor token config = config)
  ∧ (∀ h t, cfg_headers config = Some h → token = Some t → t ≠ [] →
       ∃ h', cfg_headers (request_interceptor token config) = Some h'
             ∧ h' !! js "Authorization" = Some (js "Bearer " ++ t)
             ∧ ∀ k, k ≠ js "Authorization" → h' !! k = h !! k).
Proof.
  unfold request_interceptor.
  split; [| split; [| split]].
  - destruct token as [t|]; [| done].
    destruct (cfg_headers config) as [h|] eqn:Hh; [| by rewrite Hh].
    destruct (truthy t) eqn:Ht; [| by rewrite Hh].
    simpl. rewrite with_headers_twice. by rewrite insert_insert_eq.
  - intros ->. by destruct token.
  - intros [-> | ->]; [done |]. by destruct (cfg_headers config).
  - intros h t -> -> Hne. apply truthy_nonempty in Hne. rewrite Hne.
    eexists. split; [reflexivity |]. split; [apply lookup_insert_eq |].
    intros k Hk. by apply lookup_insert_ne.
Qed.

Lemma request_interceptor_laws_witness :
  ∃ h', cfg_headers
          (request_interceptor (Some (js "new"))
             (with_headers (api_config None Samples.get_projects)
                (Some {[ js "Authorization" := js "Bearer old" ]})))
        = Some h'
        ∧ h' !! js "Authorization" = Some (js "Bearer new").
Proof.
  destruct (request_interceptor_laws (Some (js "new"))
              (with_headers (api_config None Samples.get_projects)
                 (Some {[ js "Authorization" := js "Bearer old" ]})))
    as (_ & _ & _ & Hset).
  destruct (Hset {[ js "Authorization" := js "Bearer old" ]} (js "new")
              eq_refl eq_refl ltac:(discriminate)) as (h' & Hh' & Hauth & _).
  exists h'. split; [exact Hh' | exact Hauth].
Defined.

End ExportFacts.

(* ===================================================================== *)
(** * Opening a project, saving and exporting *)
(* ===================================================================== *)

Section OpenSaveFacts.
Implicit Types (st : ProjectState) (p q : Project) (s : DocSection).

Lemma find_project_none id (ps : list Project) :
  (∀ p, p ∈ ps → p_id p ≠ id) → find_project (Some id) ps = None.
Proof.
  intros Hnone. simpl. induction ps as [|q ps IH]; [done |]. simpl.
  rewrite bool_decide_eq_false_2 by (apply Hnone, list_elem_of_here).
  apply IH. intros r Hr. apply Hnone. by apply list_elem_of_further.
Qed.

Lemma find_section_found id (ss : list DocSection) s :
  find_section id ss = Some s → s ∈ ss ∧ s_id s = id.
Proof.
  unfold find_section. intros H. apply List.find_some in H as [Hin Hid].
  split; [by apply list_elem_of_In | by apply bool_decide_eq_true in Hid].
Qed.

Lemma find_section_none id (ss : list DocSection) :
  (∀ s, s ∈ ss → s_id s ≠ id) → find_section id ss = None.
Proof.
  unfold find_section. intros Hnone. induction ss as [|s ss IH]; [done |]. simpl.
  rewrite bool_decide_eq_false_2 by (apply Hnone, list_elem_of_here).
  apply IH. intros r Hr. apply Hnone. by apply list_elem_of_further.
Qed.

Lemma find_section_exists id (ss : list DocSection) s :
  s ∈ ss → s_id s = id → ∃ s', find_section id ss = Some s'.
Proof.
  intros Hin Hs. unfold find_section.
  destruct (List.find _ ss) as [s'|] eqn:Hf; [by exists s' |].
  apply list_elem_of_In in Hin.
  pose proof (List.find_none _ _ Hf s Hin) as Hn. simpl in Hn.
  by rewrite bool_decide_eq_true_2 in Hn.
Qed.

(** X25: the open button of the dashboard does nothing for an id that no
    stored project has: no navigation, no request, no write; for an id
    that some stored project has, it navigates to the route of that id
    and hands a stored project of that id to [setCurrentProject], which
    makes it current at once when it has sections. *)
Theorem handleOpenProject_opens_stored projectId st :
  let step := handleOpenProject projectId st in
  ((∀ p, p ∈ projects st → p_id p ≠ projectId) →
   step_navigate step = None
   ∧ act_call (step_action step) = None
   ∧ act_sync (step_action step) st = st)
  ∧ (∀ p, p ∈ projects st → p_id p = projectId →
     step_navigate step = Some (js "/project/" ++ projectId)
     ∧ ∃ q, q ∈ projects st ∧ p_id q = projectId
            ∧ step_action step = setCurrentProject (Some q)
            ∧ (p_sections q ≠ [] →
               currentProject (act_sync (step_action step) st) = Some q)).
Proof.
  intros step. subst step. unfold handleOpenProject. split.
  - intros Hnone. by rewrite (find_project_none _ _ Hnone).
  - intros p Hp Hid.
    destruct (find_project_exists projectId (projects st) p Hp Hid) as [q Hq].
    rewrite Hq. simpl. split; [done |].
    destruct (find_project_found _ _ _ Hq) as [Hin Hqid].
    exists q. split; [done |]. split; [done |]. split; [done |].
    intros Hne. by destruct (p_sections q).
Qed.

Lemma handleOpenProject_opens_stored_witness :
  step_navigate (handleOpenProject (js "2") Samples.two_projects)
  = Some (js "/project/2")
  ∧ step_navigate (handleOpenProject (js "5") Samples.two_projects) = None.
Proof.
  split.
  - destruct (handleOpenProject_opens_stored (js "2") Samples.two_projects)
      as [_ Hknown].
    destruct (Hknown Samples.slides) as [Hnav _]; [| reflexivity | exact Hnav].
    apply list_elem_of_further, list_elem_of_here.
  - destruct (handleOpenProject_opens_stored (js "5") Samples.two_projects)
      as [Hnone _].
    apply Hnone. intros p Hp.
    apply elem_of_cons in Hp as [-> | Hp]; [vm_compute; discriminate |].
    apply elem_of_cons in Hp as [-> | Hp]; [vm_compute; discriminate |].
    by apply elem_of_nil in Hp.
Defined.

(** X26: [handleSaveAndExport] makes no request without a current
    project, without a selected section, or when the current project
    has no section of the selected id. Otherwise its first request
    saves a section of that id with the title and content that the
    current project holds, and the export is requested only once the
    save has succeeded: a presentation posts the deck that
    [handleExport] posts, and a file is handed to the browser exactly
    when both requests have succeeded; a failed save is logged and told
    to the user. *)
Theorem handleSaveAndExport_saves_first currentProject selectedSectionId tpl :
  let run := handleSaveAndExport currentProject selectedSectionId tpl in
  (currentProject = None ∨ selectedSectionId = None ∨ selectedSectionId = Some []
   ∨ (∃ p id, currentProject = Some p ∧ selectedSectionId = Some id
              ∧ ∀ s, s ∈ p_sections p → s_id s ≠ id) →
   ∀ saved exported,
     se_requests run saved = [] ∧ se_download run saved exported = None)
  ∧ (∀ p id s, currentProject = Some p → selectedSectionId = Some id →
       id ≠ [] → s ∈ p_sections p → s_id s = id →
       ∃ selected export,
         selected ∈ p_sections p ∧ s_id selected = id
         ∧ (∀ d, se_requests run (Ok d)
                 = [SaveSection (js "/api/projects/" ++ p_id p ++ js "/sections/"
                                 ++ id ++ js "/save")
                      (s_title selected) (s_content selected); export])
         ∧ (∀ m, se_requests run (Failed m)
                 = [SaveSection (js "/api/projects/" ++ p_id p ++ js "/sections/"
                                 ++ id ++ js "/save")
                      (s_title selected) (s_content selected)])
         ∧ (p_docType p = pptx → export = PostDeck (buildDeck p tpl))
         ∧ (p_docType p = docx →
            export = PostExportDocx (js "/api/projects/" ++ p_id p ++ js "/export"))
         ∧ (∀ m exported, se_says run (Failed m) exported = save_export_failed m)
         ∧ (∀ saved exported,
              is_Some (se_download run saved exported)
              ↔ ∃ d blob, saved = Ok d ∧ exported = Ok blob)).
Proof.
  intros run. subst run. unfold handleSaveAndExport. split.
  - intros [-> | [-> | [-> | (p & id & -> & -> & Hnone)]]]; try done.
    + by destruct currentProject.
    + by destruct currentProject.
    + simpl. destruct (truthy id); [| done]. simpl.
      by rewrite (find_section_none _ _ Hnone).
  - intros p id s -> -> Hid Hs Hsid. simpl.
    apply truthy_nonempty in Hid. rewrite Hid. simpl.
    destruct (find_section_exists id (p_sections p) s Hs Hsid) as [selected Hsel].
    rewrite Hsel. destruct (find_section_found _ _ _ Hsel) as [Hin Hselid].
    eexists selected, _. split; [done |]. split; [done |]. simpl.
    split; [done |]. split; [done |]. split; [by intros -> |].
    split; [by intros -> |]. split; [done |].
    intros [d|m] [blob|m']; simpl; split;
      try (by intros [x [=]]); try (by intros (d' & b' & [=] & [=]));
      try (intros _; by eexists _, _); try (intros _; by eexists).
Qed.

Lemma handleSaveAndExport_saves_first_witness :
  se_requests (handleSaveAndExport (Some Samples.report) (Some (js "zz")) None)
    (Ok ()) = []
  ∧ ∃ selected export,
      se_requests (handleSaveAndExport (Some Samples.report) (Some (js "s1")) None)
        (Failed (js "offline"))
      = [SaveSection (js "/api/projects/1/sections/s1/save")
           (s_title selected) (s_content selected)]
      ∧ export = PostExportDocx (js "/api/projects/1/export").
Proof.
  split.
  - destruct (handleSaveAndExport_saves_first (Some Samples.report)
                (Some (js "zz")) None) as [Hnone _].
    apply (Hnone (ltac:(right; right; right;
                        exists Samples.report, (js "zz");
                        split; [reflexivity | split; [reflexivity |]];
                        intros s Hs; apply list_elem_of_singleton in Hs;
                        subst s; vm_compute; discriminate))
                 (Ok ()) (Ok (BlobBytes []))).
  - destruct (handleSaveAndExport_saves_first (Some Samples.report)
                (Some (js "s1")) None) as [_ Hrun].
    destruct (Hrun Samples.report (js "s1") (Samples.sec "s1" "Intro" "text")
                eq_refl eq_refl ltac:(discriminate)
                ltac:(apply list_elem_of_here) eq_refl)
      as (selected & export & _ & _ & _ & Hfail & _).
    exists selected, (PostExportDocx (js "/api/projects/1/export")).
    split; [exact (Hfail (js "offline")) | reflexivity].
Defined.

End OpenSaveFacts.
